(** * Olm event decryption (package crypto, decryptolm.go)

    A shallow embedding of [DecryptOlmEvent], [decryptOlmEvent],
    [tryDecryptOlmEvent] and [createInboundSession], and the properties of
    the decryption pipeline proved about them.

    The Go methods run against an account, a session store and libolm
    sessions.  Those collaborators are fields of the machine below: each is
    a function on an abstract [World], and every call that can change the
    world (store, sessions, new sessions, saving the account, the unwedging
    marker) or write to the log is recorded, with the value it returned, in
    a chronological list of [Call]s.  The getter [account.IdentityKeys()]
    is the one collaborator that is read without being recorded.  A Go
    method [f(args) (T, error)] becomes [f args : M (Result T)]. *)

From Stdlib Require Import ZArith.
From stdpp Require Import base option list strings gmap.

Local Open Scope string_scope.
Local Open Scope Z_scope.
Local Open Scope list_scope.

(** ** Go values *)

(** A [[]byte]: [None] is the nil slice, which the pipeline tests for. *)
Definition GoBytes : Type := option (list Byte.byte).

(** A pair [(T, error)] of which exactly one component is set. *)
Inductive result (E A : Type) : Type :=
| Ok (a : A)
| Err (e : E).
Arguments Ok {E A} a.
Arguments Err {E A} e.

(** The package-level error variables ([errors.New] values).  The first
    eight are declared at the top of decryptolm.go;
    [IncorrectEncryptedContentType] is declared elsewhere in package crypto
    and [UnsupportedContentType] in package event.  Every variable is a
    distinct value, compared by identity. *)
Inductive sentinel : Type :=
| UnsupportedAlgorithm
| NotEncryptedForMe
| UnsupportedOlmMessageType
| DecryptionFailedWithMatchingSession
| DecryptionFailedForNormalMessage
| SenderMismatch
| RecipientMismatch
| RecipientKeyMismatch
| IncorrectEncryptedContentType
| UnsupportedContentType.

(** The errors declared in decryptolm.go, which are those of the taxonomy
    of the specification. *)
Definition declared_errors : list sentinel :=
  [UnsupportedAlgorithm; NotEncryptedForMe; UnsupportedOlmMessageType;
   DecryptionFailedWithMatchingSession; DecryptionFailedForNormalMessage;
   SenderMismatch; RecipientMismatch; RecipientKeyMismatch].

(** A non-nil [error]: one of the variables above, an error made outside
    these packages (libolm, the store, encoding/json), identified by its
    text, or the result of [errors.Wrap]. *)
Inductive error : Type :=
| Sentinel (v : sentinel)
| External (text : string)
| Wrap (cause : error) (message : string).
Coercion Sentinel : sentinel >-> error.

#[global] Instance sentinel_eq_dec : EqDecision sentinel.
Proof. solve_decision. Defined.
#[global] Instance error_eq_dec : EqDecision error.
Proof. solve_decision. Defined.

Abbreviation Result := (result error).
(** What a collaborator returns: its errors are never this package's. *)
Abbreviation Foreign := (result string).

(** [errors.Wrap(err, message)] and [errors.Wrapf] on a non-nil [err]. *)
Definition errors_Wrap (err : error) (message : string) : error :=
  Wrap err message.

(** [errors.Cause]: the innermost error of a chain of wraps. *)
Fixpoint errors_Cause (err : error) : error :=
  match err with
  | Wrap cause _ => errors_Cause cause
  | _ => err
  end.

(** ** Package id *)
Module id.
Abbreviation UserID := string.
Abbreviation DeviceID := string.
Abbreviation Ed25519 := string.
Abbreviation Curve25519 := string.
Abbreviation SenderKey := string.
Abbreviation Algorithm := string.
Abbreviation OlmMsgType := Z.

(** Modelled from the spec: the constants of package id are declared
    elsewhere.  The spec names two message types, PreKey and Normal; their
    numbers are those of libolm. *)
Definition OlmMsgTypePreKey : OlmMsgType := 0.
(** Modelled from the spec: the Normal message type. *)
Definition OlmMsgTypeMsg : OlmMsgType := 1.
(** Modelled from the spec: the algorithm tag of Olm v1, as the Matrix
    protocol spells it. *)
Definition AlgorithmOlmV1 : Algorithm := "m.olm.v1.curve25519-aes-sha2".
End id.

(** ** Package event *)
Module event.
(** An event type, by its type string. *)
Abbreviation EventType := string.

(** One entry of [OlmCiphertext]: [struct { Type; Body }]. *)
Record OlmCiphertext : Type := {
  Type_ : id.OlmMsgType;
  Body : string;
}.

Record EncryptedEventContent : Type := {
  Algorithm : id.Algorithm;
  SenderKey : id.SenderKey;
  OlmCiphertext_ : gmap string OlmCiphertext;
}.

(** The [interface{}] held by [Content.Parsed]: nil, a non-nil
    [*EncryptedEventContent], or a pointer to some other content struct. *)
Inductive ParsedContent : Type :=
| ParsedNil
| ParsedEncrypted (content : EncryptedEventContent)
| ParsedOther (structName : string) (fields : list Byte.byte).

Record Content : Type := {
  VeryRaw : list Byte.byte;
  Parsed : ParsedContent;
}.

Record Event : Type := {
  Sender : id.UserID;
  Content_ : Content;
}.

(** The schema of a content type: from the raw bytes to the parsed
    content struct. *)
Abbreviation Schema := (list Byte.byte -> Foreign ParsedContent).

(** Modelled from the spec: [Content.ParseRaw] and the registry [TypeMap]
    are declared elsewhere in package event.  The spec: the
    inner content is parsed against a registry mapping a type to its
    schema; a type the registry does not know gives the unsupported-type
    error and the content is kept raw; a known type whose content is
    malformed gives another error. *)
Definition ParseRaw (TypeMap : gmap string Schema) (evtType : EventType)
    (content : Content) : Content * option error :=
  match TypeMap !! evtType with
  | None => (content, Some (Sentinel UnsupportedContentType))
  | Some schema =>
      match schema (VeryRaw content) with
      | Ok parsed => ({| VeryRaw := VeryRaw content; Parsed := parsed |}, None)
      | Err text => (content, Some (External text))
      end
  end.

(** Modelled from the spec: [IsUnsupportedContentType] of package event
    recognises the error of an unrecognised type, through any wrapping. *)
Definition IsUnsupportedContentType (err : error) : bool :=
  bool_decide (errors_Cause err = Sentinel UnsupportedContentType).
End event.

(** ** Package crypto *)

Record OlmEventKeys : Type := {
  Ed25519 : id.Ed25519;
}.

(** [Source] and [SenderKey] carry the tag [json:"-"]: the payload never
    sets them. *)
Record OlmEvent : Type := {
  Source : option event.Event;
  SenderKey : id.SenderKey;
  Sender : id.UserID;
  SenderDevice : id.DeviceID;
  Keys : OlmEventKeys;
  Recipient : id.UserID;
  RecipientKeys : OlmEventKeys;
  Type_ : event.EventType;
  Content : event.Content;
}.

(** The collaborators of an [*OlmMachine].  [World] is everything they can
    read or change (the account and its one-time keys, the store, the
    ratchet state of every session, the devices marked for unwedging);
    [Session] is an [*OlmSession]. *)
Record OlmMachine (World Session : Type) : Type := {
  client_UserID : id.UserID;
  (** [account.IdentityKeys()]: the ed25519 and the curve25519 key. *)
  account_IdentityKeys : World -> id.Ed25519 * id.Curve25519;
  account_NewInboundSessionFrom :
    id.SenderKey -> string -> World -> Foreign Session * World;
  store_GetSessions : id.SenderKey -> World -> Foreign (list Session) * World;
  store_AddSession : id.SenderKey -> Session -> World -> option string * World;
  session_MatchesInboundSession : Session -> string -> World -> Foreign bool * World;
  session_Decrypt :
    Session -> string -> id.OlmMsgType -> World -> Foreign GoBytes * World;
  (** Methods of the machine defined in other files of the package. *)
  mach_SaveAccount : World -> World;
  mach_markDeviceForUnwedging : id.UserID -> id.SenderKey -> World -> World;
}.
Arguments client_UserID {World Session} _.
Arguments account_IdentityKeys {World Session} _ _.
Arguments account_NewInboundSessionFrom {World Session} _ _ _ _.
Arguments store_GetSessions {World Session} _ _ _.
Arguments store_AddSession {World Session} _ _ _ _.
Arguments session_MatchesInboundSession {World Session} _ _ _ _.
Arguments session_Decrypt {World Session} _ _ _ _ _.
Arguments mach_SaveAccount {World Session} _ _.
Arguments mach_markDeviceForUnwedging {World Session} _ _ _ _.

(** One call to a collaborator, with what it returned. *)
Inductive Call (Session : Type) : Type :=
| CallGetSessions (senderKey : id.SenderKey) (r : Foreign (list Session))
| CallMatchesInboundSession (session : Session) (ciphertext : string)
    (r : Foreign bool)
| CallDecrypt (session : Session) (ciphertext : string)
    (olmType : id.OlmMsgType) (r : Foreign GoBytes)
| CallNewInboundSessionFrom (senderKey : id.SenderKey) (ciphertext : string)
    (r : Foreign Session)
| CallSaveAccount
| CallAddSession (senderKey : id.SenderKey) (session : Session)
    (r : option string)
| CallMarkDeviceForUnwedging (sender : id.UserID) (senderKey : id.SenderKey)
| CallLogWarn (format : string) (args : list string)
| CallLogError (format : string) (err : string).
Arguments CallGetSessions {Session} _ _.
Arguments CallMatchesInboundSession {Session} _ _ _.
Arguments CallDecrypt {Session} _ _ _ _.
Arguments CallNewInboundSessionFrom {Session} _ _ _.
Arguments CallSaveAccount {Session}.
Arguments CallAddSession {Session} _ _ _.
Arguments CallMarkDeviceForUnwedging {Session} _ _.
Arguments CallLogWarn {Session} _ _.
Arguments CallLogError {Session} _ _.

(** The unwedging signal for [sender] is a call to
    [markDeviceForUnwedging]. *)
Definition unwedging_signal {Session} (sender : id.UserID)
    (senderKey : id.SenderKey) (calls : list (Call Session)) : Prop :=
  CallMarkDeviceForUnwedging sender senderKey ∈ calls.

Definition no_unwedging_signal {Session} (calls : list (Call Session)) : Prop :=
  ∀ sender senderKey, CallMarkDeviceForUnwedging sender senderKey ∉ calls.

(** ** The monad of the pipeline: state passing over the world, with the
    calls made, oldest first. *)
Section Pipeline.
Context {World Session : Type}.

Definition M (A : Type) : Type := World -> A * World * list (Call Session).

Definition ret {A} (a : A) : M A := fun w => (a, w, []).

Definition bind {A B} (m : M A) (k : A -> M B) : M B :=
  fun w =>
    let '(a, w1, calls1) := m w in
    let '(b, w2, calls2) := k a w1 in
    (b, w2, calls1 ++ calls2).

(** [call f mk]: run the collaborator [f] and record [mk] of its answer. *)
Definition call {A} (f : World -> A * World) (mk : A -> Call Session) : M A :=
  fun w => let '(a, w1) := f w in (a, w1, [mk a]).

(** A collaborator that only changes the world. *)
Definition effect (f : World -> World) (c : Call Session) : M unit :=
  fun w => (tt, f w, [c]).

(** A collaborator that only reads the world; it is not recorded. *)
Definition read {A} (f : World -> A) : M A := fun w => (f w, w, []).

(** The logger writes nothing the pipeline can read back. *)
Definition log (c : Call Session) : M unit := fun w => (tt, w, [c]).

(** The run [x], preceded by the calls [calls1]. *)
Definition after {A} (calls1 : list (Call Session))
    (x : A * World * list (Call Session)) : A * World * list (Call Session) :=
  (x.1.1, x.1.2, calls1 ++ x.2).
End Pipeline.
Arguments M : clear implicits.

Declare Scope pipeline_scope.
Delimit Scope pipeline_scope with pipeline.
Notation "x <- m ;; k" := (bind m (fun x => k))
  (at level 100, m at next level, right associativity) : pipeline_scope.
Notation "m ;;; k" := (bind m (fun _ => k))
  (at level 100, right associativity) : pipeline_scope.
(** [return nil, err] *)
Abbreviation throw err := (ret (Err err)).
(** Go on with the value of a [(T, error)] pair, or return its error. *)
Notation "x <-? m ;; k" :=
  (bind m (fun r => match r with Ok x => k | Err err => throw err end))
  (at level 100, m at next level, right associativity) : pipeline_scope.
Local Open Scope pipeline_scope.

Section Decrypt.
Context {World Session : Type}.
(** [json.Unmarshal(plaintext, &olmEvt)] into a fresh [OlmEvent]. *)
Context (json_Unmarshal : GoBytes -> Foreign OlmEvent).
(** The registry of content types of package event. *)
Context (TypeMap : gmap string event.Schema).
Context (mach : OlmMachine World Session).

Local Abbreviation M := (M World Session).

(** *** The calls of the pipeline *)

Definition GetSessions (senderKey : id.SenderKey) : M (Foreign (list Session)) :=
  call (store_GetSessions mach senderKey) (CallGetSessions senderKey).

Definition MatchesInboundSession (session : Session) (ciphertext : string)
    : M (Foreign bool) :=
  call (session_MatchesInboundSession mach session ciphertext)
       (CallMatchesInboundSession session ciphertext).

Definition Decrypt (session : Session) (ciphertext : string)
    (olmType : id.OlmMsgType) : M (Foreign GoBytes) :=
  call (session_Decrypt mach session ciphertext olmType)
       (CallDecrypt session ciphertext olmType).

Definition NewInboundSessionFrom (senderKey : id.SenderKey)
    (ciphertext : string) : M (Foreign Session) :=
  call (account_NewInboundSessionFrom mach senderKey ciphertext)
       (CallNewInboundSessionFrom senderKey ciphertext).

Definition SaveAccount : M unit :=
  effect (mach_SaveAccount mach) CallSaveAccount.

Definition AddSession (senderKey : id.SenderKey) (session : Session)
    : M (option string) :=
  call (store_AddSession mach senderKey session)
       (CallAddSession senderKey session).

Definition markDeviceForUnwedging (sender : id.UserID)
    (senderKey : id.SenderKey) : M unit :=
  effect (mach_markDeviceForUnwedging mach sender senderKey)
         (CallMarkDeviceForUnwedging sender senderKey).

Definition IdentityKeys : M (id.Ed25519 * id.Curve25519) :=
  read (account_IdentityKeys mach).

(** *** createInboundSession *)

Definition createInboundSession (senderKey : id.SenderKey)
    (ciphertext : string) : M (Result Session) :=
  r <- NewInboundSessionFrom senderKey ciphertext ;;
  match r with
  | Err err => throw (External err)
  | Ok session =>
      SaveAccount ;;;
      err <- AddSession senderKey session ;;
      match err with
      | Some err =>
          log (CallLogError "Failed to store created inbound session: %v" err)
      | None => ret tt
      end ;;;
      ret (Ok session)
  end.

(** *** tryDecryptOlmEvent *)

(** The body of [for _, session := range sessions], followed by the
    [return nil, nil] after the loop. *)
Fixpoint tryDecryptOlmEvent_range (olmType : id.OlmMsgType)
    (ciphertext : string) (sessions : list Session) : M (Result GoBytes) :=
  match sessions with
  | [] => ret (Ok None)
  | session :: sessions' =>
      let attempt : M (Result GoBytes) :=
        r <- Decrypt session ciphertext olmType ;;
        match r with
        | Err _ =>
            if decide (olmType = id.OlmMsgTypePreKey)
            then throw (Sentinel DecryptionFailedWithMatchingSession)
            else tryDecryptOlmEvent_range olmType ciphertext sessions'
        | Ok plaintext => ret (Ok plaintext)
        end in
      if decide (olmType = id.OlmMsgTypePreKey) then
        r <- MatchesInboundSession session ciphertext ;;
        match r with
        | Err err =>
            throw (errors_Wrap (External err)
                     "failed to check if ciphertext matches inbound session")
        | Ok false => tryDecryptOlmEvent_range olmType ciphertext sessions'
        | Ok true => attempt
        end
      else attempt
  end.

Definition tryDecryptOlmEvent (senderKey : id.SenderKey)
    (olmType : id.OlmMsgType) (ciphertext : string) : M (Result GoBytes) :=
  r <- GetSessions senderKey ;;
  match r with
  | Err err =>
      throw (errors_Wrap (External err)
               ("failed to get session for " +:+ senderKey))
  | Ok sessions => tryDecryptOlmEvent_range olmType ciphertext sessions
  end.

(** *** decryptOlmEvent *)

(** Lines 64 to 96: the plaintext of the event, from a stored session or
    from a session created for it. *)
Definition decryptOlmEvent_plaintext (evt : event.Event)
    (senderKey : id.SenderKey) (olmType : id.OlmMsgType)
    (ciphertext : string) : M (Result GoBytes) :=
  if decide (olmType ≠ id.OlmMsgTypePreKey ∧ olmType ≠ id.OlmMsgTypeMsg)
  then throw (Sentinel UnsupportedOlmMessageType)
  else
    r <- tryDecryptOlmEvent senderKey olmType ciphertext ;;
    match r with
    | Err err =>
        (if decide (err = Sentinel DecryptionFailedWithMatchingSession) then
           log (CallLogWarn
                  "Found matching session yet decryption failed for sender %s with key %s"
                  [event.Sender evt; senderKey]) ;;;
           markDeviceForUnwedging (event.Sender evt) senderKey
         else ret tt) ;;;
        throw (errors_Wrap err "failed to decrypt olm event")
    | Ok (Some plaintext) => ret (Ok (Some plaintext))
    | Ok None =>
        if decide (olmType ≠ id.OlmMsgTypePreKey) then
          markDeviceForUnwedging (event.Sender evt) senderKey ;;;
          throw (Sentinel DecryptionFailedForNormalMessage)
        else
          r <- createInboundSession senderKey ciphertext ;;
          match r with
          | Err err =>
              markDeviceForUnwedging (event.Sender evt) senderKey ;;;
              throw (errors_Wrap err
                       "failed to create new session from prekey message")
          | Ok session =>
              r <- Decrypt session ciphertext olmType ;;
              match r with
              | Err err =>
                  throw (errors_Wrap (External err)
                           "failed to decrypt olm event with session created from prekey message")
              | Ok plaintext => ret (Ok plaintext)
              end
          end
    end.

(** Lines 98 to 119: parse the payload, check who it is from and for,
    parse its content. *)
Definition decryptOlmEvent_payload (evt : event.Event)
    (senderKey : id.SenderKey) (plaintext : GoBytes) : M (Result OlmEvent) :=
  match json_Unmarshal plaintext with
  | Err err => throw (errors_Wrap (External err) "failed to parse olm payload")
  | Ok olmEvt =>
      if decide (event.Sender evt ≠ Sender olmEvt) then
        throw (Sentinel SenderMismatch)
      else if decide (client_UserID mach ≠ Recipient olmEvt) then
        throw (Sentinel RecipientMismatch)
      else
        keys <- IdentityKeys ;;
        if decide (keys.1 ≠ Ed25519 (RecipientKeys olmEvt)) then
          throw (Sentinel RecipientKeyMismatch)
        else
          let '(content, err) :=
            event.ParseRaw TypeMap (Type_ olmEvt) (Content olmEvt) in
          (* olmEvt after ParseRaw and the two assignments of lines 116, 117 *)
          let olmEvt' :=
            {| Source := Some evt; SenderKey := senderKey;
               Sender := Sender olmEvt; SenderDevice := SenderDevice olmEvt;
               Keys := Keys olmEvt; Recipient := Recipient olmEvt;
               RecipientKeys := RecipientKeys olmEvt;
               Type_ := Type_ olmEvt; Content := content |} in
          match err with
          | Some err =>
              if negb (event.IsUnsupportedContentType err) then
                throw (errors_Wrap err
                         "failed to parse content of olm payload event")
              else ret (Ok olmEvt')
          | None => ret (Ok olmEvt')
          end
  end.

Definition decryptOlmEvent (evt : event.Event) (senderKey : id.SenderKey)
    (olmType : id.OlmMsgType) (ciphertext : string) : M (Result OlmEvent) :=
  plaintext <-? decryptOlmEvent_plaintext evt senderKey olmType ciphertext ;;
  decryptOlmEvent_payload evt senderKey plaintext.

(** *** DecryptOlmEvent *)

Definition DecryptOlmEvent (evt : event.Event) : M (Result OlmEvent) :=
  match event.Parsed (event.Content_ evt) with
  | event.ParsedEncrypted content =>
      if decide (event.Algorithm content ≠ id.AlgorithmOlmV1) then
        throw (Sentinel UnsupportedAlgorithm)
      else
        keys <- IdentityKeys ;;
        let ownKey := keys.2 in
        match event.OlmCiphertext_ content !! ownKey with
        | None => throw (Sentinel NotEncryptedForMe)
        | Some ownContent =>
            decryptOlmEvent evt (event.SenderKey content)
              (event.Type_ ownContent) (event.Body ownContent)
        end
  | _ => throw (Sentinel IncorrectEncryptedContentType)
  end.

(** *** Situations of a trial pass *)

(** Every session of [pre], checked in order from the world [w], reports
    that the pre-key message is not its own: the world after the checks. *)
Fixpoint not_matching (ciphertext : string) (pre : list Session) (w : World)
    : option World :=
  match pre with
  | [] => Some w
  | session :: pre' =>
      match session_MatchesInboundSession mach session ciphertext w with
      | (Ok false, w1) => not_matching ciphertext pre' w1
      | _ => None
      end
  end.

(** Every session of [sessions], tried in order from the world [w], fails
    to decrypt: the errors and the world after the attempts. *)
Fixpoint failing_decrypts (ciphertext : string) (olmType : id.OlmMsgType)
    (sessions : list Session) (w : World) : option (list string * World) :=
  match sessions with
  | [] => Some ([], w)
  | session :: sessions' =>
      match session_Decrypt mach session ciphertext olmType w with
      | (Err err, w1) =>
          match failing_decrypts ciphertext olmType sessions' w1 with
          | Some (errs, w2) => Some (err :: errs, w2)
          | None => None
          end
      | _ => None
      end
  end.

(** *** Vocabulary of the properties *)

(** The calls of a trial pass are match checks and decrypt attempts of
    stored sessions only. *)
Definition trial_call (c : Call Session) : Prop :=
  match c with
  | CallMatchesInboundSession _ _ _ | CallDecrypt _ _ _ _ => True
  | _ => False
  end.

(** What [createInboundSession] logs for the answer [r] of the store. *)
Definition store_log (r : option string) : list (Call Session) :=
  match r with
  | Some err => [CallLogError "Failed to store created inbound session: %v" err]
  | None => []
  end.

(** The message types the pipeline accepts. *)
Definition valid_type (olmType : id.OlmMsgType) : Prop :=
  olmType = id.OlmMsgTypePreKey ∨ olmType = id.OlmMsgTypeMsg.

(** The envelope returned for the payload [olmEvt] once its content has
    been through [ParseRaw]. *)
Definition envelope (evt : event.Event) (senderKey : id.SenderKey)
    (olmEvt : OlmEvent) (content : event.Content) : OlmEvent :=
  {| Source := Some evt; SenderKey := senderKey;
     Sender := Sender olmEvt; SenderDevice := SenderDevice olmEvt;
     Keys := Keys olmEvt; Recipient := Recipient olmEvt;
     RecipientKeys := RecipientKeys olmEvt;
     Type_ := Type_ olmEvt; Content := content |}.

(** The three checks of lines 103 to 109 all pass in the world [w]. *)
Definition authentic (evt : event.Event) (olmEvt : OlmEvent) (w : World) : Prop :=
  event.Sender evt = Sender olmEvt
  ∧ client_UserID mach = Recipient olmEvt
  ∧ (account_IdentityKeys mach w).1 = Ed25519 (RecipientKeys olmEvt).

(** The three errors of a desynchronised session: the confirmed failure of
    a matching session, the exhaustion of a normal message, the failure to
    create a session from a pre-key message. *)
Definition desync_error (err : error) : Prop :=
  err = Wrap (Sentinel DecryptionFailedWithMatchingSession)
          "failed to decrypt olm event"
  ∨ err = Sentinel DecryptionFailedForNormalMessage
  ∨ ∃ text, err = Wrap (External text)
                    "failed to create new session from prekey message".

(** The shapes of the errors [decryptOlmEvent] returns: five of the
    declared errors as they are, the confirmed failure wrapped once, and
    errors of the collaborators under one or two wraps. *)
Definition pipeline_error (err : error) : Prop :=
  err ∈ [Sentinel UnsupportedOlmMessageType;
         Sentinel DecryptionFailedForNormalMessage;
         Sentinel SenderMismatch; Sentinel RecipientMismatch;
         Sentinel RecipientKeyMismatch;
         Wrap (Sentinel DecryptionFailedWithMatchingSession)
           "failed to decrypt olm event"]
  ∨ ∃ cause message text,
      err = Wrap cause message ∧ errors_Cause cause = External text.

(** The recorded calls a message that is not a pre-key message can cause:
    reading the stored sessions, decrypt attempts, the unwedging signal.
    (Reading the identity keys of the account is not a recorded call.) *)
Definition normal_call (c : Call Session) : Prop :=
  match c with
  | CallGetSessions _ _ | CallDecrypt _ _ _ _
  | CallMarkDeviceForUnwedging _ _ => True
  | _ => False
  end.
End Decrypt.

(** ** Package mautrix (requests.go): one-time keys *)
Module mautrix.
Section OneTimeKey.
(** The dynamic values of [map[string]interface{}]. *)
Context {Any : Type}.

(** [map[id.UserID]map[id.DeviceKeyID]string] *)
Abbreviation Signatures := (gmap string (gmap string string)).

(** A map field is [None] when it is the nil map. *)
Record OneTimeKey : Type := {
  Key : string;
  IsSigned : bool;
  Signatures_ : option Signatures;
  Unsigned : option (gmap string Any);
}.

(** encoding/json, at the two types the methods use it at.  Decoding into
    a [*serializableOTK] works on the struct it is given and returns it as
    the decoder left it, with the error if any; decoding into a [*string]
    starts from the empty string.  [serializableOTK] has the fields of
    [OneTimeKey] and none of its methods. *)
Context (json_Unmarshal_serializableOTK :
           list Byte.byte -> OneTimeKey -> OneTimeKey * option string).
Context (json_Unmarshal_string : list Byte.byte -> string * option string).
Context (json_Marshal_serializableOTK : OneTimeKey -> Foreign (list Byte.byte)).
Context (json_Marshal_string : string -> Foreign (list Byte.byte)).

(** [func (otk *OneTimeKey) UnmarshalJSON(data []byte) error]: the key
    after the call, and the error returned. *)
Definition UnmarshalJSON (otk : OneTimeKey) (data : list Byte.byte)
    : OneTimeKey * option string :=
  let '(otk, err) := json_Unmarshal_serializableOTK data otk in
  match err with
  | Some _ =>
      let '(key, err) := json_Unmarshal_string data in
      match err with
      | Some err => (otk, Some err)
      | None =>
          ({| Key := key; IsSigned := false;
              Signatures_ := None; Unsigned := None |}, None)
      end
  | None =>
      ({| Key := Key otk; IsSigned := true;
          Signatures_ := Signatures_ otk; Unsigned := Unsigned otk |}, None)
  end.

(** [func (otk *OneTimeKey) MarshalJSON() ([]byte, error)] *)
Definition MarshalJSON (otk : OneTimeKey) : Foreign (list Byte.byte) :=
  if negb (IsSigned otk) then json_Marshal_string (Key otk)
  else json_Marshal_serializableOTK otk.
End OneTimeKey.
Arguments OneTimeKey : clear implicits.
End mautrix.



(** ** A small concrete machine

    Sessions that carry their own answers, a world that is the journal of
    the changes made to it, and payloads of four bytes.  It runs the
    pipeline on concrete inputs. *)
Module Toy.
Record session : Type := {
  name : string;
  matches : Foreign bool;
  decrypts : Foreign GoBytes;
}.

Definition world : Type := list string.

Definition machine (stored : Foreign (list session))
    (created : Foreign session) (added : option string)
    : OlmMachine world session :=
  {| client_UserID := "@bob:example.com";
     account_IdentityKeys := fun _ => ("ACC1ED", "ACC1");
     account_NewInboundSessionFrom := fun _ _ w =>
       (created, match created with
                 | Ok s => w ++ ["one-time key used by " +:+ name s]
                 | Err _ => w
                 end);
     store_GetSessions := fun _ w => (stored, w);
     store_AddSession := fun _ s w =>
       (added, match added with
               | None => w ++ ["stored " +:+ name s]
               | Some _ => w
               end);
     session_MatchesInboundSession := fun s _ w => (matches s, w);
     session_Decrypt := fun s _ _ w =>
       (decrypts s, w ++ ["ratchet of " +:+ name s]);
     mach_SaveAccount := fun w => w ++ ["account saved"];
     mach_markDeviceForUnwedging := fun sender _ w =>
       w ++ ["unwedge " +:+ sender] |}.

(** Payloads: byte 1 chooses the sender, byte 2 the recipient, byte 3 the
    recipient key and byte 4 the content type; zero is the honest value. *)
Definition json_Unmarshal (plaintext : GoBytes) : Foreign OlmEvent :=
  match plaintext with
  | Some [s; r; k; t] =>
      Ok {| Source := None; SenderKey := "";
            Sender := if Byte.eqb s Byte.x00 then "@alice:example.com"
                      else "@mallory:example.com";
            SenderDevice := "DEV1";
            Keys := {| Ed25519 := "SIGA" |};
            Recipient := if Byte.eqb r Byte.x00 then "@bob:example.com"
                         else "@carol:example.com";
            RecipientKeys :=
              {| Ed25519 := if Byte.eqb k Byte.x00 then "ACC1ED" else "OTHER" |};
            Type_ := if Byte.eqb t Byte.x00 then "m.room.message"
                     else if Byte.eqb t Byte.x01 then "m.broken"
                     else "org.example.unknown";
            Content := {| event.VeryRaw := [t]; event.Parsed := event.ParsedNil |} |}
  | _ => Err "unexpected end of JSON input"
  end.

Definition TypeMap : gmap string event.Schema :=
  {[ "m.room.message" :=
       (fun raw => Ok (event.ParsedOther "MessageEventContent" raw));
     "m.broken" :=
       (fun _ => Err "json: cannot unmarshal string into Go value") ]}.

Definition honest : GoBytes := Some [Byte.x00; Byte.x00; Byte.x00; Byte.x00].

Definition alice_event (parsed : event.ParsedContent) : event.Event :=
  {| event.Sender := "@alice:example.com";
     event.Content_ := {| event.VeryRaw := []; event.Parsed := parsed |} |}.

Definition olm_content (algorithm : id.Algorithm) (recipient : string)
    (olmType : id.OlmMsgType) : event.EncryptedEventContent :=
  {| event.Algorithm := algorithm;
     event.SenderKey := "SENDER1";
     event.OlmCiphertext_ :=
       {[ recipient := {| event.Type_ := olmType; event.Body := "BODY" |} ]} |}.

(** Stored sessions: one of another conversation, one that matches the
    pre-key message and cannot decrypt it, one that matches and decrypts,
    one whose match check fails, and one that decrypts to [payload]. *)
Definition stranger : session :=
  {| name := "S1"; matches := Ok false; decrypts := Err "BAD_MESSAGE_MAC" |}.
Definition wedged : session :=
  {| name := "S2"; matches := Ok true; decrypts := Err "BAD_MESSAGE_MAC" |}.
Definition healthy : session :=
  {| name := "S3"; matches := Ok true; decrypts := Ok honest |}.
Definition corrupt : session :=
  {| name := "S4"; matches := Err "INVALID_BASE64";
     decrypts := Err "INVALID_BASE64" |}.
Definition carrying (payload : GoBytes) : session :=
  {| name := "S5"; matches := Ok true; decrypts := Ok payload |}.

Definition run_decryptOlmEvent stored created added evt senderKey olmType ciphertext :=
  decryptOlmEvent json_Unmarshal TypeMap (machine stored created added)
    evt senderKey olmType ciphertext [].

Definition run_DecryptOlmEvent stored created added evt :=
  DecryptOlmEvent json_Unmarshal TypeMap (machine stored created added) evt [].
End Toy.

(** ** A stand-in for encoding/json

    Just enough of a codec to run the methods of [OneTimeKey]: a string is
    written between two quotes, a key struct between two braces (only its
    key text is written), and each decoder rejects the other form. *)
Module ToyJSON.
Definition quote : Byte.byte := Byte.x22.
Definition lbrace : Byte.byte := Byte.x7b.
Definition rbrace : Byte.byte := Byte.x7d.

Definition Marshal_string (s : string) : Foreign (list Byte.byte) :=
  Ok (quote :: String.list_byte_of_string s ++ [quote]).

Definition Unmarshal_string (data : list Byte.byte) : string * option string :=
  match data with
  | first :: rest =>
      if Byte.eqb first quote
      then (String.string_of_list_byte (removelast rest), None)
      else ("", Some "json: cannot unmarshal object into Go value of type string")
  | [] => ("", Some "unexpected end of JSON input")
  end.

Definition Marshal_serializableOTK (otk : mautrix.OneTimeKey unit)
    : Foreign (list Byte.byte) :=
  Ok (lbrace :: String.list_byte_of_string (mautrix.Key otk) ++ [rbrace]).

Definition Unmarshal_serializableOTK (data : list Byte.byte)
    (otk : mautrix.OneTimeKey unit) : mautrix.OneTimeKey unit * option string :=
  match data with
  | first :: rest =>
      if Byte.eqb first lbrace
      then ({| mautrix.Key := String.string_of_list_byte (removelast rest);
               mautrix.IsSigned := mautrix.IsSigned otk;
               mautrix.Signatures_ := mautrix.Signatures_ otk;
               mautrix.Unsigned := mautrix.Unsigned otk |}, None)
      else (otk, Some "json: cannot unmarshal string into Go value of type mautrix.serializableOTK")
  | [] => (otk, Some "unexpected end of JSON input")
  end.

Definition UnmarshalJSON :=
  mautrix.UnmarshalJSON Unmarshal_serializableOTK Unmarshal_string.
Definition MarshalJSON :=
  mautrix.MarshalJSON Marshal_serializableOTK Marshal_string.

(** A key as the account hands it out, and a key that carries signatures
    although it is not marked as signed. *)
Definition plain_key : mautrix.OneTimeKey unit :=
  {| mautrix.Key := "OTK7"; mautrix.IsSigned := false;
     mautrix.Signatures_ := None; mautrix.Unsigned := None |}.
Definition signed_key : mautrix.OneTimeKey unit :=
  {| mautrix.Key := "OTK7"; mautrix.IsSigned := true;
     mautrix.Signatures_ := Some {[ "@bob:example.com" := {[ "ed25519:DEV" := "SIG" ]} ]};
     mautrix.Unsigned := None |}.
End ToyJSON.

(** ** Properties *)

Lemma app_cons_singleton {A} (pre post : list A) (x y : A) :
  pre ++ x :: post = [y] → pre = [] ∧ x = y ∧ post = [].
Proof.
  destruct pre as [|a pre]; simpl; intros H.
  - by inversion H.
  - inversion H as [[Ha Hnil]]. by destruct pre.
Qed.

Section Properties.
Context {World Session : Type}.
Context (json_Unmarshal : GoBytes -> Foreign OlmEvent).
Context (TypeMap : gmap string event.Schema).
Context (mach : OlmMachine World Session).

Local Abbreviation M := (M World Session).
Local Abbreviation tryDecryptOlmEvent_range := (tryDecryptOlmEvent_range mach).
Local Abbreviation tryDecryptOlmEvent := (tryDecryptOlmEvent mach).
Local Abbreviation createInboundSession := (createInboundSession mach).
Local Abbreviation decryptOlmEvent_plaintext := (decryptOlmEvent_plaintext mach).
Local Abbreviation decryptOlmEvent_payload :=
  (decryptOlmEvent_payload json_Unmarshal TypeMap mach).
Local Abbreviation decryptOlmEvent :=
  (decryptOlmEvent json_Unmarshal TypeMap mach).
Local Abbreviation DecryptOlmEvent :=
  (DecryptOlmEvent json_Unmarshal TypeMap mach).
Local Abbreviation authentic := (authentic mach).

(** *** The monad *)


Lemma after_run {A} (calls1 : list (Call Session)) (a : A) (w : World) calls :
  after calls1 (a, w, calls) = (a, w, calls1 ++ calls).
Proof. done. Qed.

Lemma bind_run {A B} (m : M A) (k : A → M B) w a w1 calls1 :
  m w = (a, w1, calls1) → bind m k w = after calls1 (k a w1).
Proof.
  intros H. unfold bind, after. rewrite H. by destruct (k a w1) as [[b w2] calls2].
Qed.

Lemma call_run {A} (f : World → A * World) (mk : A → Call Session) w a w1 :
  f w = (a, w1) → call f mk w = (a, w1, [mk a]).
Proof. intros H. unfold call. by rewrite H. Qed.

(** Run the call at the head of the pipeline from its recorded answer. *)
Ltac next := erewrite bind_run; [|by apply call_run]; cbv beta iota.

(** *** One turn of the loop of the trial pass *)

Lemma range_nil olmType ciphertext w :
  tryDecryptOlmEvent_range olmType ciphertext [] w = (Ok None, w, []).
Proof. done. Qed.

Lemma range_match_error ciphertext s sessions w err w1 :
  session_MatchesInboundSession mach s ciphertext w = (Err err, w1) →
  tryDecryptOlmEvent_range id.OlmMsgTypePreKey ciphertext (s :: sessions) w
  = (Err (errors_Wrap (External err)
            "failed to check if ciphertext matches inbound session"),
     w1, [CallMatchesInboundSession s ciphertext (Err err)]).
Proof.
  intros H. simpl. next. done.
Qed.

Lemma range_no_match ciphertext s sessions w w1 :
  session_MatchesInboundSession mach s ciphertext w = (Ok false, w1) →
  tryDecryptOlmEvent_range id.OlmMsgTypePreKey ciphertext (s :: sessions) w
  = after [CallMatchesInboundSession s ciphertext (Ok false)]
      (tryDecryptOlmEvent_range id.OlmMsgTypePreKey ciphertext sessions w1).
Proof.
  intros H. simpl. next. done.
Qed.

Lemma range_match_decrypt ciphertext s sessions w w1 r w2 :
  session_MatchesInboundSession mach s ciphertext w = (Ok true, w1) →
  session_Decrypt mach s ciphertext id.OlmMsgTypePreKey w1 = (r, w2) →
  tryDecryptOlmEvent_range id.OlmMsgTypePreKey ciphertext (s :: sessions) w
  = (match r with
     | Ok plaintext => Ok plaintext
     | Err _ => Err (Sentinel DecryptionFailedWithMatchingSession)
     end, w2,
     [CallMatchesInboundSession s ciphertext (Ok true);
      CallDecrypt s ciphertext id.OlmMsgTypePreKey r]).
Proof.
  intros HM HD. simpl. next.
  next. by destruct r.
Qed.

Lemma range_decrypt_ok olmType ciphertext s sessions w plaintext w1 :
  olmType ≠ id.OlmMsgTypePreKey →
  session_Decrypt mach s ciphertext olmType w = (Ok plaintext, w1) →
  tryDecryptOlmEvent_range olmType ciphertext (s :: sessions) w
  = (Ok plaintext, w1, [CallDecrypt s ciphertext olmType (Ok plaintext)]).
Proof.
  intros Hty HD. simpl. destruct (decide (olmType = id.OlmMsgTypePreKey)); [done|].
  next. done.
Qed.

Lemma range_decrypt_error olmType ciphertext s sessions w err w1 :
  olmType ≠ id.OlmMsgTypePreKey →
  session_Decrypt mach s ciphertext olmType w = (Err err, w1) →
  tryDecryptOlmEvent_range olmType ciphertext (s :: sessions) w
  = after [CallDecrypt s ciphertext olmType (Err err)]
      (tryDecryptOlmEvent_range olmType ciphertext sessions w1).
Proof.
  intros Hty HD. simpl. destruct (decide (olmType = id.OlmMsgTypePreKey)); [done|].
  next. done.
Qed.


Lemma range_trial_calls olmType ciphertext sessions w r w' calls :
  tryDecryptOlmEvent_range olmType ciphertext sessions w = (r, w', calls) →
  Forall trial_call calls.
Proof.
  revert w r w' calls.
  induction sessions as [|s sessions IH]; intros w r w' calls.
  - rewrite range_nil. intros [= <- <- <-]. constructor.
  - destruct (decide (olmType = id.OlmMsgTypePreKey)) as [->|Hty].
    + destruct (session_MatchesInboundSession mach s ciphertext w)
        as [[[|]|err] w1] eqn:HM.
      * destruct (session_Decrypt mach s ciphertext id.OlmMsgTypePreKey w1)
          as [rd w2] eqn:HD.
        rewrite (range_match_decrypt _ _ _ _ _ _ _ HM HD).
        intros [= <- <- <-]. repeat constructor.
      * rewrite (range_no_match _ _ _ _ _ HM).
        destruct (tryDecryptOlmEvent_range _ _ sessions w1)
          as [[r1 w2] calls2] eqn:E.
        intros [= <- <- <-]. constructor; [done|]. by eapply IH.
      * rewrite (range_match_error _ _ _ _ _ _ HM).
        intros [= <- <- <-]. repeat constructor.
    + destruct (session_Decrypt mach s ciphertext olmType w)
        as [[p|err] w1] eqn:HD.
      * rewrite (range_decrypt_ok _ _ _ _ _ _ _ Hty HD).
        intros [= <- <- <-]. repeat constructor.
      * rewrite (range_decrypt_error _ _ _ _ _ _ _ Hty HD).
        destruct (tryDecryptOlmEvent_range _ _ sessions w1)
          as [[r1 w2] calls2] eqn:E.
        intros [= <- <- <-]. constructor; [done|]. by eapply IH.
Qed.

Lemma after_after {A} calls1 calls2 (x : A * World * list (Call Session)) :
  after calls1 (after calls2 x) = after (calls1 ++ calls2) x.
Proof. unfold after. simpl. by rewrite app_assoc. Qed.

Lemma range_not_matching ciphertext pre rest w w1 :
  not_matching mach ciphertext pre w = Some w1 →
  tryDecryptOlmEvent_range id.OlmMsgTypePreKey ciphertext (pre ++ rest) w
  = after (map (λ s, CallMatchesInboundSession s ciphertext (Ok false)) pre)
      (tryDecryptOlmEvent_range id.OlmMsgTypePreKey ciphertext rest w1).
Proof.
  revert w. induction pre as [|s pre IH]; intros w; simpl not_matching.
  - intros [= ->]. simpl. by destruct (tryDecryptOlmEvent_range _ _ rest w1) as [[??]?].
  - destruct (session_MatchesInboundSession mach s ciphertext w)
      as [[[|]|err] w0] eqn:HM; try done.
    intros H. rewrite <- app_comm_cons, (range_no_match _ _ _ _ _ HM).
    by rewrite (IH _ H), after_after.
Qed.

Lemma range_failing_decrypts olmType ciphertext sessions w errs w1 :
  olmType ≠ id.OlmMsgTypePreKey →
  failing_decrypts mach ciphertext olmType sessions w = Some (errs, w1) →
  tryDecryptOlmEvent_range olmType ciphertext sessions w
  = (Ok None, w1,
     zip_with (λ s err, CallDecrypt s ciphertext olmType (Err err)) sessions errs).
Proof.
  intros Hty. revert w errs.
  induction sessions as [|s sessions IH]; intros w errs; simpl failing_decrypts.
  - by intros [= <- <-].
  - destruct (session_Decrypt mach s ciphertext olmType w)
      as [[p|err] w0] eqn:HD; try done.
    destruct (failing_decrypts mach ciphertext olmType sessions w0)
      as [[errs' w2]|] eqn:HF; try done.
    intros [= <- <-]. rewrite (range_decrypt_error _ _ _ _ _ _ _ Hty HD).
    by rewrite (IH _ _ HF).
Qed.

(** A type other than PreKey never makes the loop return an error. *)
Lemma range_not_prekey olmType ciphertext sessions w :
  olmType ≠ id.OlmMsgTypePreKey →
  ∃ plaintext, (tryDecryptOlmEvent_range olmType ciphertext sessions w).1.1
               = Ok plaintext.
Proof.
  intros Hty. revert w. induction sessions as [|s sessions IH]; intros w.
  - by exists None.
  - destruct (session_Decrypt mach s ciphertext olmType w)
      as [[p|err] w0] eqn:HD.
    + rewrite (range_decrypt_ok _ _ _ _ _ _ _ Hty HD). by exists p.
    + rewrite (range_decrypt_error _ _ _ _ _ _ _ Hty HD). apply IH.
Qed.

(** In a pass over a pre-key message, a match check that returns an error
    is the last call; the sessions before it were checked and rejected. *)
Lemma range_match_error_last ciphertext sessions w r w' calls
    pre s ct err post :
  tryDecryptOlmEvent_range id.OlmMsgTypePreKey ciphertext sessions w
  = (r, w', calls) →
  calls = pre ++ CallMatchesInboundSession s ct (Err err) :: post →
  post = []
  ∧ r = Err (errors_Wrap (External err)
               "failed to check if ciphertext matches inbound session")
  ∧ ∃ before later,
      sessions = before ++ s :: later
      ∧ pre = map (λ x, CallMatchesInboundSession x ciphertext (Ok false)) before.
Proof.
  revert w r w' calls pre.
  induction sessions as [|s0 sessions IH]; intros w r w' calls pre.
  - rewrite range_nil. intros [= <- <- <-] H. by destruct pre.
  - destruct (session_MatchesInboundSession mach s0 ciphertext w)
      as [[[|]|err0] w1] eqn:HM.
    + destruct (session_Decrypt mach s0 ciphertext id.OlmMsgTypePreKey w1)
        as [rd w2] eqn:HD.
      rewrite (range_match_decrypt _ _ _ _ _ _ _ HM HD).
      intros [= <- <- <-] H.
      destruct pre as [|c1 [|c2 pre]]; simplify_eq/=. by destruct pre.
    + rewrite (range_no_match _ _ _ _ _ HM).
      destruct (tryDecryptOlmEvent_range _ _ sessions w1)
        as [[r1 w2] calls2] eqn:E.
      rewrite after_run. intros [= <- <- <-] H.
      destruct pre as [|c1 pre]; simplify_eq/=.
      destruct (IH _ _ _ _ _ E eq_refl) as (-> & -> & before & later & -> & ->).
      split; [done|]. split; [done|]. by exists (s0 :: before), later.
    + rewrite (range_match_error _ _ _ _ _ _ HM).
      intros [= <- <- <-] H.
      apply eq_sym, app_cons_singleton in H as (-> & [= -> -> ->] & ->).
      split; [done|]. split; [done|]. by exists [], sessions.
Qed.

(** *** tryDecryptOlmEvent *)

Lemma tryDecryptOlmEvent_sessions senderKey olmType ciphertext w sessions w0 :
  store_GetSessions mach senderKey w = (Ok sessions, w0) →
  tryDecryptOlmEvent senderKey olmType ciphertext w
  = after [CallGetSessions senderKey (Ok sessions)]
      (tryDecryptOlmEvent_range olmType ciphertext sessions w0).
Proof. intros H. unfold tryDecryptOlmEvent. by next. Qed.

Lemma tryDecryptOlmEvent_store_error senderKey olmType ciphertext w err w0 :
  store_GetSessions mach senderKey w = (Err err, w0) →
  tryDecryptOlmEvent senderKey olmType ciphertext w
  = (Err (errors_Wrap (External err) ("failed to get session for " +:+ senderKey)),
     w0, [CallGetSessions senderKey (Err err)]).
Proof. intros H. unfold tryDecryptOlmEvent. by next. Qed.

(** A trial pass never signals unwedging and never logs. *)
Lemma tryDecryptOlmEvent_no_unwedging senderKey olmType ciphertext w r w' calls :
  tryDecryptOlmEvent senderKey olmType ciphertext w = (r, w', calls) →
  no_unwedging_signal calls.
Proof.
  destruct (store_GetSessions mach senderKey w) as [[sessions|err] w0] eqn:HG.
  - rewrite (tryDecryptOlmEvent_sessions _ _ _ _ _ _ HG).
    destruct (tryDecryptOlmEvent_range _ _ sessions w0)
      as [[r1 w1] calls1] eqn:E.
    rewrite after_run. intros [= <- <- <-] sender key Hin.
    apply elem_of_cons in Hin as [Hin|Hin]; [done|].
    apply range_trial_calls in E. rewrite Forall_forall in E.
    by apply E in Hin.
  - rewrite (tryDecryptOlmEvent_store_error _ _ _ _ _ _ HG).
    intros [= <- <- <-] sender key Hin.
    apply elem_of_cons in Hin as [Hin|Hin]; [done|]. by apply elem_of_nil in Hin.
Qed.

(** The only sentinel a trial pass returns bare is the confirmed failure,
    and only for a pre-key message. *)
Lemma tryDecryptOlmEvent_error senderKey olmType ciphertext w err w' calls :
  tryDecryptOlmEvent senderKey olmType ciphertext w = (Err err, w', calls) →
  (err = Sentinel DecryptionFailedWithMatchingSession
   ∧ olmType = id.OlmMsgTypePreKey)
  ∨ ∃ text message, err = Wrap (External text) message.
Proof.
  destruct (store_GetSessions mach senderKey w) as [[sessions|e0] w0] eqn:HG.
  - rewrite (tryDecryptOlmEvent_sessions _ _ _ _ _ _ HG).
    destruct (tryDecryptOlmEvent_range _ _ sessions w0)
      as [[r1 w1] calls1] eqn:E.
    rewrite after_run. intros [= -> <- <-]. clear HG.
    revert w0 w1 calls1 E.
    induction sessions as [|s sessions IH]; intros w0 w1 calls1.
    + by rewrite range_nil.
    + destruct (decide (olmType = id.OlmMsgTypePreKey)) as [->|Hty].
      * destruct (session_MatchesInboundSession mach s ciphertext w0)
          as [[[|]|e1] w2] eqn:HM.
        -- destruct (session_Decrypt mach s ciphertext id.OlmMsgTypePreKey w2)
             as [rd w3] eqn:HD.
           rewrite (range_match_decrypt _ _ _ _ _ _ _ HM HD).
           destruct rd; intros [= <- <- <-]. by left.
        -- rewrite (range_no_match _ _ _ _ _ HM).
           destruct (tryDecryptOlmEvent_range _ _ sessions w2)
             as [[r1 w3] calls2] eqn:E.
           rewrite after_run. intros [= -> <- <-]. by eapply IH.
        -- rewrite (range_match_error _ _ _ _ _ _ HM).
           intros [= <- <- <-]. right. by eexists _, _.
      * intros E. destruct (range_not_prekey olmType ciphertext (s :: sessions) w0 Hty)
          as [p Hp]. rewrite E in Hp. done.
  - rewrite (tryDecryptOlmEvent_store_error _ _ _ _ _ _ HG).
    intros [= <- <- <-]. right. by eexists _, _.
Qed.

(** *** createInboundSession *)


Lemma createInboundSession_error senderKey ciphertext w err w1 :
  account_NewInboundSessionFrom mach senderKey ciphertext w = (Err err, w1) →
  createInboundSession senderKey ciphertext w
  = (Err (External err), w1,
     [CallNewInboundSessionFrom senderKey ciphertext (Err err)]).
Proof. intros H. unfold createInboundSession. by next. Qed.

Lemma createInboundSession_session senderKey ciphertext w session w1 r w2 :
  account_NewInboundSessionFrom mach senderKey ciphertext w = (Ok session, w1) →
  store_AddSession mach senderKey session (mach_SaveAccount mach w1) = (r, w2) →
  createInboundSession senderKey ciphertext w
  = (Ok session, w2,
     [CallNewInboundSessionFrom senderKey ciphertext (Ok session);
      CallSaveAccount; CallAddSession senderKey session r] ++ store_log r).
Proof.
  intros HN HA. unfold createInboundSession. next.
  erewrite bind_run; [|done]. next. by destruct r.
Qed.

(** *** decryptOlmEvent, up to the plaintext *)


Lemma Msg_not_PreKey : id.OlmMsgTypeMsg ≠ id.OlmMsgTypePreKey.
Proof. done. Qed.

Lemma valid_type_decide olmType :
  valid_type olmType →
  ¬ (olmType ≠ id.OlmMsgTypePreKey ∧ olmType ≠ id.OlmMsgTypeMsg).
Proof. intros [->| ->] [? ?]; done. Qed.

Ltac enter_plaintext Hty :=
  unfold decryptOlmEvent_plaintext;
  destruct (decide (_ ∧ _)) as [Hbad|_];
  [by apply valid_type_decide in Hty|];
  erewrite bind_run; [|eassumption]; cbv beta iota.

Lemma plaintext_unsupported_type evt senderKey olmType ciphertext w :
  ¬ valid_type olmType →
  decryptOlmEvent_plaintext evt senderKey olmType ciphertext w
  = (Err (Sentinel UnsupportedOlmMessageType), w, []).
Proof.
  intros Hty. unfold decryptOlmEvent_plaintext.
  destruct (decide (_ ∧ _)) as [_|Hok]; [done|].
  destruct Hty. unfold valid_type.
  destruct (decide (olmType = id.OlmMsgTypePreKey)); [by left|].
  destruct (decide (olmType = id.OlmMsgTypeMsg)); [by right|].
  by destruct Hok.
Qed.

Lemma plaintext_confirmed_failure evt senderKey olmType ciphertext w w1 calls1 :
  valid_type olmType →
  tryDecryptOlmEvent senderKey olmType ciphertext w
  = (Err (Sentinel DecryptionFailedWithMatchingSession), w1, calls1) →
  decryptOlmEvent_plaintext evt senderKey olmType ciphertext w
  = (Err (errors_Wrap (Sentinel DecryptionFailedWithMatchingSession)
            "failed to decrypt olm event"),
     mach_markDeviceForUnwedging mach (event.Sender evt) senderKey w1,
     calls1 ++
     [CallLogWarn
        "Found matching session yet decryption failed for sender %s with key %s"
        [event.Sender evt; senderKey];
      CallMarkDeviceForUnwedging (event.Sender evt) senderKey]).
Proof. intros Hty H. enter_plaintext Hty. done. Qed.

Lemma plaintext_trial_error evt senderKey olmType ciphertext w err w1 calls1 :
  valid_type olmType →
  err ≠ Sentinel DecryptionFailedWithMatchingSession →
  tryDecryptOlmEvent senderKey olmType ciphertext w = (Err err, w1, calls1) →
  decryptOlmEvent_plaintext evt senderKey olmType ciphertext w
  = (Err (errors_Wrap err "failed to decrypt olm event"), w1, calls1).
Proof.
  intros Hty Hne H. enter_plaintext Hty.
  destruct (decide (err = _)); [done|]. unfold after. simpl. by rewrite !app_nil_r.
Qed.

Lemma plaintext_trial_success evt senderKey olmType ciphertext w bytes w1 calls1 :
  valid_type olmType →
  tryDecryptOlmEvent senderKey olmType ciphertext w = (Ok (Some bytes), w1, calls1) →
  decryptOlmEvent_plaintext evt senderKey olmType ciphertext w
  = (Ok (Some bytes), w1, calls1).
Proof.
  intros Hty H. enter_plaintext Hty. unfold after. simpl. by rewrite app_nil_r.
Qed.

Lemma plaintext_normal_exhausted evt senderKey ciphertext w w1 calls1 :
  tryDecryptOlmEvent senderKey id.OlmMsgTypeMsg ciphertext w = (Ok None, w1, calls1) →
  decryptOlmEvent_plaintext evt senderKey id.OlmMsgTypeMsg ciphertext w
  = (Err (Sentinel DecryptionFailedForNormalMessage),
     mach_markDeviceForUnwedging mach (event.Sender evt) senderKey w1,
     calls1 ++ [CallMarkDeviceForUnwedging (event.Sender evt) senderKey]).
Proof.
  intros H. assert (Hty : valid_type id.OlmMsgTypeMsg) by by right.
  enter_plaintext Hty. done.
Qed.

Lemma plaintext_bootstrap_error evt senderKey ciphertext w w1 calls1 err w2 calls2 :
  tryDecryptOlmEvent senderKey id.OlmMsgTypePreKey ciphertext w
  = (Ok None, w1, calls1) →
  createInboundSession senderKey ciphertext w1 = (Err err, w2, calls2) →
  decryptOlmEvent_plaintext evt senderKey id.OlmMsgTypePreKey ciphertext w
  = (Err (errors_Wrap err "failed to create new session from prekey message"),
     mach_markDeviceForUnwedging mach (event.Sender evt) senderKey w2,
     calls1 ++ calls2 ++ [CallMarkDeviceForUnwedging (event.Sender evt) senderKey]).
Proof.
  intros H HC. assert (Hty : valid_type id.OlmMsgTypePreKey) by by left.
  enter_plaintext Hty. destruct (decide (_ ≠ _)); [done|].
  erewrite bind_run; [|eassumption]. done.
Qed.

Lemma plaintext_bootstrap_decrypt evt senderKey ciphertext w w1 calls1
    session w2 calls2 r w3 :
  tryDecryptOlmEvent senderKey id.OlmMsgTypePreKey ciphertext w
  = (Ok None, w1, calls1) →
  createInboundSession senderKey ciphertext w1 = (Ok session, w2, calls2) →
  session_Decrypt mach session ciphertext id.OlmMsgTypePreKey w2 = (r, w3) →
  decryptOlmEvent_plaintext evt senderKey id.OlmMsgTypePreKey ciphertext w
  = (match r with
     | Ok plaintext => Ok plaintext
     | Err err =>
         Err (errors_Wrap (External err)
                "failed to decrypt olm event with session created from prekey message")
     end, w3,
     calls1 ++ calls2 ++ [CallDecrypt session ciphertext id.OlmMsgTypePreKey r]).
Proof.
  intros H HC HD. assert (Hty : valid_type id.OlmMsgTypePreKey) by by left.
  enter_plaintext Hty. destruct (decide (_ ≠ _)); [done|].
  erewrite bind_run; [|eassumption]. cbv beta iota. next. by destruct r.
Qed.

(** *** decryptOlmEvent, from the plaintext on *)


Lemma payload_pure evt senderKey plaintext w :
  decryptOlmEvent_payload evt senderKey plaintext w
  = ((decryptOlmEvent_payload evt senderKey plaintext w).1.1, w, []).
Proof.
  unfold decryptOlmEvent_payload.
  destruct (json_Unmarshal plaintext) as [olmEvt|err]; [|done].
  destruct (decide (event.Sender evt ≠ _)); [done|].
  destruct (decide (client_UserID mach ≠ _)); [done|].
  unfold bind, IdentityKeys, read.
  destruct (decide (_ ≠ Ed25519 _)); [done|].
  destruct (event.ParseRaw _ _ _) as [content [err|]]; [|done].
  by destruct (negb _).
Qed.

Lemma payload_unparsed evt senderKey plaintext w err :
  json_Unmarshal plaintext = Err err →
  decryptOlmEvent_payload evt senderKey plaintext w
  = (Err (errors_Wrap (External err) "failed to parse olm payload"), w, []).
Proof. intros H. unfold decryptOlmEvent_payload. by rewrite H. Qed.

Lemma payload_sender_mismatch evt senderKey plaintext w olmEvt :
  json_Unmarshal plaintext = Ok olmEvt →
  event.Sender evt ≠ Sender olmEvt →
  decryptOlmEvent_payload evt senderKey plaintext w
  = (Err (Sentinel SenderMismatch), w, []).
Proof.
  intros H Hs. unfold decryptOlmEvent_payload. rewrite H.
  by destruct (decide (event.Sender evt ≠ _)).
Qed.

Lemma payload_recipient_mismatch evt senderKey plaintext w olmEvt :
  json_Unmarshal plaintext = Ok olmEvt →
  event.Sender evt = Sender olmEvt →
  client_UserID mach ≠ Recipient olmEvt →
  decryptOlmEvent_payload evt senderKey plaintext w
  = (Err (Sentinel RecipientMismatch), w, []).
Proof.
  intros H Hs Hr. unfold decryptOlmEvent_payload. rewrite H.
  destruct (decide (event.Sender evt ≠ _)); [done|].
  by destruct (decide (client_UserID mach ≠ _)).
Qed.

Lemma payload_recipient_key_mismatch evt senderKey plaintext w olmEvt :
  json_Unmarshal plaintext = Ok olmEvt →
  event.Sender evt = Sender olmEvt →
  client_UserID mach = Recipient olmEvt →
  (account_IdentityKeys mach w).1 ≠ Ed25519 (RecipientKeys olmEvt) →
  decryptOlmEvent_payload evt senderKey plaintext w
  = (Err (Sentinel RecipientKeyMismatch), w, []).
Proof.
  intros H Hs Hr Hk. unfold decryptOlmEvent_payload. rewrite H.
  destruct (decide (event.Sender evt ≠ _)); [done|].
  destruct (decide (client_UserID mach ≠ _)); [done|].
  unfold bind, IdentityKeys, read.
  by destruct (decide (_ ≠ Ed25519 _)).
Qed.

Lemma payload_authentic evt senderKey plaintext w olmEvt :
  json_Unmarshal plaintext = Ok olmEvt →
  authentic evt olmEvt w →
  decryptOlmEvent_payload evt senderKey plaintext w
  = (let '(content, err) :=
       event.ParseRaw TypeMap (Type_ olmEvt) (Content olmEvt) in
     match err with
     | Some err =>
         if event.IsUnsupportedContentType err
         then Ok (envelope evt senderKey olmEvt content)
         else Err (errors_Wrap err "failed to parse content of olm payload event")
     | None => Ok (envelope evt senderKey olmEvt content)
     end, w, []).
Proof.
  intros H (Hs & Hr & Hk). unfold decryptOlmEvent_payload. rewrite H.
  destruct (decide (event.Sender evt ≠ _)); [done|].
  destruct (decide (client_UserID mach ≠ _)); [done|].
  unfold bind, IdentityKeys, read.
  destruct (decide (_ ≠ Ed25519 _)); [done|].
  destruct (event.ParseRaw _ _ _) as [content [err|]]; [|done].
  by destruct (event.IsUnsupportedContentType err).
Qed.

(** Whatever the payload stage returns as an envelope is authentic. *)
Lemma payload_ok_authentic evt senderKey plaintext w r w' calls :
  decryptOlmEvent_payload evt senderKey plaintext w = (Ok r, w', calls) →
  authentic evt r w
  ∧ Source r = Some evt ∧ SenderKey r = senderKey.
Proof.
  destruct (json_Unmarshal plaintext) as [olmEvt|err] eqn:HJ;
    [|by rewrite (payload_unparsed _ _ _ _ _ HJ)].
  destruct (decide (event.Sender evt = Sender olmEvt)) as [Hs|Hs];
    [|by rewrite (payload_sender_mismatch _ _ _ _ _ HJ Hs)].
  destruct (decide (client_UserID mach = Recipient olmEvt)) as [Hr|Hr];
    [|by rewrite (payload_recipient_mismatch _ _ _ _ _ HJ Hs Hr)].
  destruct (decide ((account_IdentityKeys mach w).1 = Ed25519 (RecipientKeys olmEvt)))
    as [Hk|Hk];
    [|by rewrite (payload_recipient_key_mismatch _ _ _ _ _ HJ Hs Hr Hk)].
  rewrite (payload_authentic _ _ _ _ _ HJ (conj Hs (conj Hr Hk))).
  destruct (event.ParseRaw _ _ _) as [content [err|]];
    [destruct (event.IsUnsupportedContentType err)|];
    intros [= <- <- <-]; done.
Qed.

Lemma ParseRaw_error evtType content content' err :
  event.ParseRaw TypeMap evtType content = (content', Some err) →
  content' = content
  ∧ (err = Sentinel UnsupportedContentType ∧ TypeMap !! evtType = None
     ∨ ∃ text, err = External text).
Proof.
  unfold event.ParseRaw. destruct (TypeMap !! evtType) as [schema|].
  - destruct (schema _); intros [= <- <-]. eauto.
  - intros [= <- <-]. eauto.
Qed.

(** The errors of the payload stage: a mismatch, or a wrapped error of
    encoding/json or of a content schema. *)
Lemma payload_error evt senderKey plaintext w err w' calls :
  decryptOlmEvent_payload evt senderKey plaintext w = (Err err, w', calls) →
  err = Sentinel SenderMismatch ∨ err = Sentinel RecipientMismatch
  ∨ err = Sentinel RecipientKeyMismatch
  ∨ ∃ text message, err = Wrap (External text) message.
Proof.
  destruct (json_Unmarshal plaintext) as [olmEvt|e0] eqn:HJ.
  2:{ rewrite (payload_unparsed _ _ _ _ _ HJ). intros [= <- <- <-].
      do 3 right. by eexists _, _. }
  destruct (decide (event.Sender evt = Sender olmEvt)) as [Hs|Hs].
  2:{ rewrite (payload_sender_mismatch _ _ _ _ _ HJ Hs). intros [= <- <- <-]. eauto. }
  destruct (decide (client_UserID mach = Recipient olmEvt)) as [Hr|Hr].
  2:{ rewrite (payload_recipient_mismatch _ _ _ _ _ HJ Hs Hr).
      intros [= <- <- <-]. eauto. }
  destruct (decide ((account_IdentityKeys mach w).1 = Ed25519 (RecipientKeys olmEvt)))
    as [Hk|Hk].
  2:{ rewrite (payload_recipient_key_mismatch _ _ _ _ _ HJ Hs Hr Hk).
      intros [= <- <- <-]. eauto. }
  rewrite (payload_authentic _ _ _ _ _ HJ (conj Hs (conj Hr Hk))).
  destruct (event.ParseRaw _ _ _) as [content [e1|]] eqn:HP; [|done].
  apply ParseRaw_error in HP as [_ [[-> _]|[text ->]]]; [done|].
  intros [= <- <- <-]. do 3 right. by eexists _, _.
Qed.

(** *** decryptOlmEvent *)

Lemma decryptOlmEvent_plaintext_error evt senderKey olmType ciphertext w err w1 calls1 :
  decryptOlmEvent_plaintext evt senderKey olmType ciphertext w = (Err err, w1, calls1) →
  decryptOlmEvent evt senderKey olmType ciphertext w = (Err err, w1, calls1).
Proof.
  intros H. unfold decryptOlmEvent. erewrite bind_run; [|eassumption].
  unfold after. simpl. by rewrite app_nil_r.
Qed.

Lemma decryptOlmEvent_plaintext_ok evt senderKey olmType ciphertext w
    plaintext w1 calls1 :
  decryptOlmEvent_plaintext evt senderKey olmType ciphertext w
  = (Ok plaintext, w1, calls1) →
  decryptOlmEvent evt senderKey olmType ciphertext w
  = ((decryptOlmEvent_payload evt senderKey plaintext w1).1.1, w1, calls1).
Proof.
  intros H. unfold decryptOlmEvent. erewrite bind_run; [|eassumption].
  cbv beta iota. rewrite payload_pure. unfold after. simpl. by rewrite app_nil_r.
Qed.

(** *** Where the unwedging signal can come from *)

Lemma no_unwedging_nil : no_unwedging_signal (Session:=Session) [].
Proof. intros sender key H. by apply elem_of_nil in H. Qed.

Lemma no_unwedging_app (calls1 calls2 : list (Call Session)) :
  no_unwedging_signal calls1 → no_unwedging_signal calls2 →
  no_unwedging_signal (calls1 ++ calls2).
Proof.
  intros H1 H2 sender key H. apply elem_of_app in H as [H|H].
  - by apply H1 in H.
  - by apply H2 in H.
Qed.

Lemma no_unwedging_cons (c : Call Session) calls :
  (∀ sender key, c ≠ CallMarkDeviceForUnwedging sender key) →
  no_unwedging_signal calls → no_unwedging_signal (c :: calls).
Proof.
  intros Hc H sender key Hin. apply elem_of_cons in Hin as [Hin|Hin].
  - by apply (Hc sender key).
  - by apply H in Hin.
Qed.

Lemma createInboundSession_no_unwedging senderKey ciphertext w r w' calls :
  createInboundSession senderKey ciphertext w = (r, w', calls) →
  no_unwedging_signal calls.
Proof.
  destruct (account_NewInboundSessionFrom mach senderKey ciphertext w)
    as [[session|err] w1] eqn:HN.
  - destruct (store_AddSession mach senderKey session (mach_SaveAccount mach w1))
      as [ra w2] eqn:HA.
    rewrite (createInboundSession_session _ _ _ _ _ _ _ HN HA).
    intros [= <- <- <-]. destruct ra; simpl;
      repeat (apply no_unwedging_cons; [done|]); apply no_unwedging_nil.
  - rewrite (createInboundSession_error _ _ _ _ _ HN). intros [= <- <- <-].
    apply no_unwedging_cons; [done|]. apply no_unwedging_nil.
Qed.

Lemma valid_type_dec olmType : valid_type olmType ∨ ¬ valid_type olmType.
Proof.
  unfold valid_type.
  destruct (decide (olmType = id.OlmMsgTypePreKey)); [by left; left|].
  destruct (decide (olmType = id.OlmMsgTypeMsg)); [by left; right|].
  right. by intros [?|?].
Qed.

(** A plaintext reaches the payload stage only on a path without
    unwedging signal. *)
Lemma plaintext_ok_no_unwedging evt senderKey olmType ciphertext w plaintext w1 calls1 :
  decryptOlmEvent_plaintext evt senderKey olmType ciphertext w
  = (Ok plaintext, w1, calls1) →
  no_unwedging_signal calls1.
Proof.
  destruct (valid_type_dec olmType) as [Hty|Hty];
    [|by rewrite (plaintext_unsupported_type _ _ _ _ _ Hty)].
  destruct (tryDecryptOlmEvent senderKey olmType ciphertext w)
    as [[[[bytes|]|err] w0] calls0] eqn:HT.
  - rewrite (plaintext_trial_success _ _ _ _ _ _ _ _ Hty HT).
    intros [= <- <- <-]. by eapply tryDecryptOlmEvent_no_unwedging.
  - destruct Hty as [->| ->];
      [|by rewrite (plaintext_normal_exhausted _ _ _ _ _ _ HT)].
    destruct (createInboundSession senderKey ciphertext w0)
      as [[[session|err] w2] calls2] eqn:HC;
      [|by rewrite (plaintext_bootstrap_error _ _ _ _ _ _ _ _ _ HT HC)].
    destruct (session_Decrypt mach session ciphertext id.OlmMsgTypePreKey w2)
      as [rd w3] eqn:HD.
    rewrite (plaintext_bootstrap_decrypt _ _ _ _ _ _ _ _ _ _ _ HT HC HD).
    destruct rd; intros [= <- <- <-].
    apply no_unwedging_app; [by eapply tryDecryptOlmEvent_no_unwedging|].
    apply no_unwedging_app; [by eapply createInboundSession_no_unwedging|].
    apply no_unwedging_cons; [done|]. apply no_unwedging_nil.
  - destruct (decide (err = Sentinel DecryptionFailedWithMatchingSession)) as [->|Hne].
    + by rewrite (plaintext_confirmed_failure _ _ _ _ _ _ _ Hty HT).
    + by rewrite (plaintext_trial_error _ _ _ _ _ _ _ _ Hty Hne HT).
Qed.

(** ** The claims *)

(** C1. [decryptOlmEvent] returns an envelope only if the sender of the
    payload is the sender of the transport event, its recipient is the
    user of the local client and its recipient ed25519 key is the
    fingerprint key of the local account.  Once a plaintext has been
    obtained and parsed, the first of the three checks that fails gives
    [SenderMismatch], [RecipientMismatch] or [RecipientKeyMismatch]; the
    pipeline stops there (no call follows those made to obtain the
    plaintext) and no unwedging signal has been emitted. *)
Theorem decryptOlmEvent_authenticates evt senderKey olmType ciphertext w :
  (∀ olmEvt w' calls,
      decryptOlmEvent evt senderKey olmType ciphertext w = (Ok olmEvt, w', calls) →
      Sender olmEvt = event.Sender evt
      ∧ Recipient olmEvt = client_UserID mach
      ∧ Ed25519 (RecipientKeys olmEvt) = (account_IdentityKeys mach w').1)
  ∧ (∀ plaintext w1 calls1 payload,
      decryptOlmEvent_plaintext evt senderKey olmType ciphertext w
      = (Ok plaintext, w1, calls1) →
      json_Unmarshal plaintext = Ok payload →
      no_unwedging_signal calls1
      ∧ (event.Sender evt ≠ Sender payload →
         decryptOlmEvent evt senderKey olmType ciphertext w
         = (Err (Sentinel SenderMismatch), w1, calls1))
      ∧ (event.Sender evt = Sender payload →
         client_UserID mach ≠ Recipient payload →
         decryptOlmEvent evt senderKey olmType ciphertext w
         = (Err (Sentinel RecipientMismatch), w1, calls1))
      ∧ (event.Sender evt = Sender payload →
         client_UserID mach = Recipient payload →
         (account_IdentityKeys mach w1).1 ≠ Ed25519 (RecipientKeys payload) →
         decryptOlmEvent evt senderKey olmType ciphertext w
         = (Err (Sentinel RecipientKeyMismatch), w1, calls1))).
Proof.
  split.
  - intros olmEvt w' calls.
    destruct (decryptOlmEvent_plaintext evt senderKey olmType ciphertext w)
      as [[[plaintext|err] w1] calls1] eqn:HP.
    + rewrite (decryptOlmEvent_plaintext_ok _ _ _ _ _ _ _ _ HP).
      intros [= Hr <- <-].
      assert (Hrun : decryptOlmEvent_payload evt senderKey plaintext w1
                     = (Ok olmEvt, w1, [])) by by rewrite payload_pure, Hr.
      apply payload_ok_authentic in Hrun as ((Hs & Hu & Hk) & _). done.
    + by rewrite (decryptOlmEvent_plaintext_error _ _ _ _ _ _ _ _ HP).
  - intros plaintext w1 calls1 payload HP HJ.
    rewrite (decryptOlmEvent_plaintext_ok _ _ _ _ _ _ _ _ HP).
    split; [by eapply plaintext_ok_no_unwedging|].
    split; [|split].
    + intros Hs. by rewrite (payload_sender_mismatch _ _ _ _ _ HJ Hs).
    + intros Hs Hr. by rewrite (payload_recipient_mismatch _ _ _ _ _ HJ Hs Hr).
    + intros Hs Hr Hk.
      by rewrite (payload_recipient_key_mismatch _ _ _ _ _ HJ Hs Hr Hk).
Qed.

(** C6. When the payload decrypts, parses and passes the three checks:
    if the registry does not know its declared content type, the
    envelope is returned all the same, with the content as the payload
    had it (raw bytes kept, nothing parsed in); if the registry knows
    the type and the schema rejects the content, the schema's error is
    returned wrapped. *)
Theorem decryptOlmEvent_content_tolerance
    evt senderKey olmType ciphertext w plaintext w1 calls1 payload :
  decryptOlmEvent_plaintext evt senderKey olmType ciphertext w
  = (Ok plaintext, w1, calls1) →
  json_Unmarshal plaintext = Ok payload →
  authentic evt payload w1 →
  (TypeMap !! Type_ payload = None →
   decryptOlmEvent evt senderKey olmType ciphertext w
   = (Ok (envelope evt senderKey payload (Content payload)), w1, calls1))
  ∧ (∀ schema text,
      TypeMap !! Type_ payload = Some schema →
      schema (event.VeryRaw (Content payload)) = Err text →
      decryptOlmEvent evt senderKey olmType ciphertext w
      = (Err (errors_Wrap (External text)
                "failed to parse content of olm payload event"), w1, calls1)).
Proof.
  intros HP HJ Ha.
  rewrite (decryptOlmEvent_plaintext_ok _ _ _ _ _ _ _ _ HP).
  rewrite (payload_authentic _ _ _ _ _ HJ Ha). unfold event.ParseRaw. split.
  - by intros ->.
  - intros schema text -> ->. done.
Qed.

(** A new session that fails to decrypt the message it was created
    from: the run of the pipeline. *)
Lemma bootstrap_decrypt_failure evt senderKey ciphertext w w1 calls1
    session w2 ra w3 err w4 :
  tryDecryptOlmEvent senderKey id.OlmMsgTypePreKey ciphertext w
  = (Ok None, w1, calls1) →
  account_NewInboundSessionFrom mach senderKey ciphertext w1 = (Ok session, w2) →
  store_AddSession mach senderKey session (mach_SaveAccount mach w2) = (ra, w3) →
  session_Decrypt mach session ciphertext id.OlmMsgTypePreKey w3 = (Err err, w4) →
  decryptOlmEvent evt senderKey id.OlmMsgTypePreKey ciphertext w
  = (Err (errors_Wrap (External err)
            "failed to decrypt olm event with session created from prekey message"),
     w4,
     calls1 ++
     ([CallNewInboundSessionFrom senderKey ciphertext (Ok session);
       CallSaveAccount; CallAddSession senderKey session ra] ++ store_log ra) ++
     [CallDecrypt session ciphertext id.OlmMsgTypePreKey (Err err)]).
Proof.
  intros HT HN HA HD. apply decryptOlmEvent_plaintext_error.
  by rewrite (plaintext_bootstrap_decrypt _ _ _ _ _ _ _ _ _ _ _ HT
                (createInboundSession_session _ _ _ _ _ _ _ HN HA) HD).
Qed.

Lemma bootstrap_calls_no_unwedging senderKey ciphertext w r w1 calls1
    (session : Session) ra (c : Call Session) :
  tryDecryptOlmEvent senderKey id.OlmMsgTypePreKey ciphertext w = (r, w1, calls1) →
  (∀ sender key, c ≠ CallMarkDeviceForUnwedging sender key) →
  no_unwedging_signal
    (calls1 ++
     ([CallNewInboundSessionFrom senderKey ciphertext (Ok session);
       CallSaveAccount; CallAddSession senderKey session ra] ++ store_log ra) ++
     [c]).
Proof.
  intros HT Hc.
  apply no_unwedging_app; [by eapply tryDecryptOlmEvent_no_unwedging|].
  apply no_unwedging_app.
  - destruct ra; simpl;
      repeat (apply no_unwedging_cons; [done|]); apply no_unwedging_nil.
  - apply no_unwedging_cons; [done|]. apply no_unwedging_nil.
Qed.

(** The confirmed failure, read off the stored list: for a pre-key
    message, when the stored sessions before [s] all report a negative
    match, [s] passes the match check and the decrypt of [s] fails, the
    pipeline returns [DecryptionFailedWithMatchingSession] wrapped, signals
    unwedging for the sender of the event, and has touched no session
    after [s]. *)
Theorem first_match_failure_is_confirmed
    evt senderKey ciphertext w pre s post w0 w1 w2 err w3 :
  store_GetSessions mach senderKey w = (Ok (pre ++ s :: post), w0) →
  not_matching mach ciphertext pre w0 = Some w1 →
  session_MatchesInboundSession mach s ciphertext w1 = (Ok true, w2) →
  session_Decrypt mach s ciphertext id.OlmMsgTypePreKey w2 = (Err err, w3) →
  let calls :=
    CallGetSessions senderKey (Ok (pre ++ s :: post))
    :: map (λ x, CallMatchesInboundSession x ciphertext (Ok false)) pre
    ++ [CallMatchesInboundSession s ciphertext (Ok true);
        CallDecrypt s ciphertext id.OlmMsgTypePreKey (Err err);
        CallLogWarn
          "Found matching session yet decryption failed for sender %s with key %s"
          [event.Sender evt; senderKey];
        CallMarkDeviceForUnwedging (event.Sender evt) senderKey] in
  decryptOlmEvent evt senderKey id.OlmMsgTypePreKey ciphertext w
  = (Err (errors_Wrap (Sentinel DecryptionFailedWithMatchingSession)
            "failed to decrypt olm event"),
     mach_markDeviceForUnwedging mach (event.Sender evt) senderKey w3, calls)
  ∧ unwedging_signal (event.Sender evt) senderKey calls.
Proof.
  intros HG HS HM HD calls. split.
  - apply decryptOlmEvent_plaintext_error.
    erewrite plaintext_confirmed_failure; [|by left|].
    2:{ rewrite (tryDecryptOlmEvent_sessions _ _ _ _ _ _ HG).
        rewrite (range_not_matching _ _ _ _ _ HS).
        rewrite (range_match_decrypt _ _ _ _ _ _ _ HM HD).
        rewrite after_run, after_run. done. }
    f_equal. unfold calls. simpl. by rewrite <- app_assoc.
  - unfold unwedging_signal, calls. rewrite elem_of_cons, elem_of_app.
    right. right. rewrite !elem_of_cons. auto.
Qed.

(** C3. For a normal message, when the store returns its sessions and
    the decrypt of every one of them fails (none, if the list is empty),
    the pipeline signals unwedging and returns
    [DecryptionFailedForNormalMessage].  And whatever the store and the
    sessions do, the error returned for a normal message is never
    [DecryptionFailedWithMatchingSession], bare or wrapped. *)
Theorem normal_message_exhaustion evt senderKey ciphertext w :
  (∀ sessions w0 errs w1,
      store_GetSessions mach senderKey w = (Ok sessions, w0) →
      failing_decrypts mach ciphertext id.OlmMsgTypeMsg sessions w0
      = Some (errs, w1) →
      let calls :=
        CallGetSessions senderKey (Ok sessions)
        :: zip_with (λ s err, CallDecrypt s ciphertext id.OlmMsgTypeMsg (Err err))
             sessions errs
        ++ [CallMarkDeviceForUnwedging (event.Sender evt) senderKey] in
      decryptOlmEvent evt senderKey id.OlmMsgTypeMsg ciphertext w
      = (Err (Sentinel DecryptionFailedForNormalMessage),
         mach_markDeviceForUnwedging mach (event.Sender evt) senderKey w1, calls)
      ∧ unwedging_signal (event.Sender evt) senderKey calls)
  ∧ (∀ err w' calls,
      decryptOlmEvent evt senderKey id.OlmMsgTypeMsg ciphertext w
      = (Err err, w', calls) →
      errors_Cause err ≠ Sentinel DecryptionFailedWithMatchingSession).
Proof.
  split.
  - intros sessions w0 errs w1 HG HF calls. split.
    + apply decryptOlmEvent_plaintext_error. unfold calls.
      rewrite app_comm_cons. apply plaintext_normal_exhausted.
      rewrite (tryDecryptOlmEvent_sessions _ _ _ _ _ _ HG).
      by rewrite (range_failing_decrypts _ _ _ _ _ _ Msg_not_PreKey HF), after_run.
    + unfold unwedging_signal, calls. rewrite elem_of_cons, elem_of_app.
      right. right. rewrite elem_of_cons. auto.
  - intros err w' calls.
    destruct (decryptOlmEvent_plaintext evt senderKey id.OlmMsgTypeMsg ciphertext w)
      as [[[plaintext|e0] w1] calls1] eqn:HP.
    + rewrite (decryptOlmEvent_plaintext_ok _ _ _ _ _ _ _ _ HP).
      intros [= Hr <- <-].
      assert (Hrun : decryptOlmEvent_payload evt senderKey plaintext w1
                     = (Err err, w1, [])) by by rewrite payload_pure, Hr.
      apply payload_error in Hrun as [->|[->|[->|(text & message & ->)]]]; done.
    + rewrite (decryptOlmEvent_plaintext_error _ _ _ _ _ _ _ _ HP).
      intros [= <- <- <-]. revert HP.
      destruct (tryDecryptOlmEvent senderKey id.OlmMsgTypeMsg ciphertext w)
        as [[[[bytes|]|e1] w2] calls2] eqn:HT.
      * by rewrite (plaintext_trial_success _ _ _ _ _ _ _ _ ltac:(by right) HT).
      * rewrite (plaintext_normal_exhausted _ _ _ _ _ _ HT).
        by intros [= <- <- <-].
      * destruct (tryDecryptOlmEvent_error _ _ _ _ _ _ _ HT)
          as [[_ ?]|(text & message & ->)]; [by destruct Msg_not_PreKey|].
        assert (Hne : Wrap (External text) message
                      ≠ Sentinel DecryptionFailedWithMatchingSession) by done.
        rewrite (plaintext_trial_error _ _ _ _ _ _ _ _ ltac:(by right) Hne HT).
        by intros [= <- <- <-].
Qed.

(** C4, amended.  For a pre-key message, when the trial pass is
    inconclusive, a new session is created and that session fails to
    decrypt the message: the pipeline returns the decrypt error wrapped,
    which is not [DecryptionFailedWithMatchingSession], and emits no
    unwedging signal. *)
Theorem new_session_failure_without_signal
    evt senderKey ciphertext w w1 calls1 session w2 ra w3 err w4 r w' calls :
  tryDecryptOlmEvent senderKey id.OlmMsgTypePreKey ciphertext w
  = (Ok None, w1, calls1) →
  account_NewInboundSessionFrom mach senderKey ciphertext w1 = (Ok session, w2) →
  store_AddSession mach senderKey session (mach_SaveAccount mach w2) = (ra, w3) →
  session_Decrypt mach session ciphertext id.OlmMsgTypePreKey w3 = (Err err, w4) →
  decryptOlmEvent evt senderKey id.OlmMsgTypePreKey ciphertext w = (r, w', calls) →
  (∃ message, r = Err (Wrap (External err) message))
  ∧ (∀ e, r = Err e →
       errors_Cause e ≠ Sentinel DecryptionFailedWithMatchingSession)
  ∧ no_unwedging_signal calls.
Proof.
  intros HT HN HA HD.
  rewrite (bootstrap_decrypt_failure _ _ _ _ _ _ _ _ _ _ _ _ HT HN HA HD).
  intros [= <- <- <-]. split; [by eexists|]. split.
  - by intros e [= <-].
  - by eapply bootstrap_calls_no_unwedging.
Qed.

(** C5. In the same situation the wrapped decrypt error is final: the
    failed decrypt is the last call of the pipeline (no other session is
    tried, nothing is retried) and there is no unwedging signal. *)
Theorem new_session_failure_is_terminal
    evt senderKey ciphertext w w1 calls1 session w2 ra w3 err w4 :
  tryDecryptOlmEvent senderKey id.OlmMsgTypePreKey ciphertext w
  = (Ok None, w1, calls1) →
  account_NewInboundSessionFrom mach senderKey ciphertext w1 = (Ok session, w2) →
  store_AddSession mach senderKey session (mach_SaveAccount mach w2) = (ra, w3) →
  session_Decrypt mach session ciphertext id.OlmMsgTypePreKey w3 = (Err err, w4) →
  let calls :=
    calls1 ++
    ([CallNewInboundSessionFrom senderKey ciphertext (Ok session);
      CallSaveAccount; CallAddSession senderKey session ra] ++ store_log ra) ++
    [CallDecrypt session ciphertext id.OlmMsgTypePreKey (Err err)] in
  decryptOlmEvent evt senderKey id.OlmMsgTypePreKey ciphertext w
  = (Err (errors_Wrap (External err)
            "failed to decrypt olm event with session created from prekey message"),
     w4, calls)
  ∧ no_unwedging_signal calls.
Proof.
  intros HT HN HA HD calls. split.
  - by eapply bootstrap_decrypt_failure.
  - by eapply bootstrap_calls_no_unwedging.
Qed.

(** C7. When [NewInboundSessionFrom] succeeds, [createInboundSession]
    saves the account first, then adds the session to the store (in the
    world the save left), and returns the session whatever the store
    answered: a store error only goes to the log.  The pipeline then
    decrypts with that session, and what it returns depends on that
    decrypt alone. *)
Theorem createInboundSession_saves_then_stores
    senderKey ciphertext w session w1 ra w2 :
  account_NewInboundSessionFrom mach senderKey ciphertext w = (Ok session, w1) →
  store_AddSession mach senderKey session (mach_SaveAccount mach w1) = (ra, w2) →
  let calls :=
    [CallNewInboundSessionFrom senderKey ciphertext (Ok session);
     CallSaveAccount;
     CallAddSession senderKey session ra]
    ++ match ra with
       | Some err =>
           [CallLogError "Failed to store created inbound session: %v" err]
       | None => []
       end in
  createInboundSession senderKey ciphertext w = (Ok session, w2, calls)
  ∧ ∀ evt w0 calls0 rd w3,
      tryDecryptOlmEvent senderKey id.OlmMsgTypePreKey ciphertext w0
      = (Ok None, w, calls0) →
      session_Decrypt mach session ciphertext id.OlmMsgTypePreKey w2 = (rd, w3) →
      decryptOlmEvent evt senderKey id.OlmMsgTypePreKey ciphertext w0
      = (match rd with
         | Ok plaintext => (decryptOlmEvent_payload evt senderKey plaintext w3).1.1
         | Err err =>
             Err (errors_Wrap (External err)
                    "failed to decrypt olm event with session created from prekey message")
         end, w3,
         calls0 ++ calls
         ++ [CallDecrypt session ciphertext id.OlmMsgTypePreKey rd]).
Proof.
  intros HN HA calls.
  pose proof (createInboundSession_session _ _ _ _ _ _ _ HN HA) as HC.
  split; [done|]. intros evt w0 calls0 rd w3 HT HD.
  pose proof (plaintext_bootstrap_decrypt evt _ _ _ _ _ _ _ _ _ _ HT HC HD) as HP.
  destruct rd as [plaintext|err].
  - by rewrite (decryptOlmEvent_plaintext_ok _ _ _ _ _ _ _ _ HP).
  - by rewrite (decryptOlmEvent_plaintext_error _ _ _ _ _ _ _ _ HP).
Qed.

(** C8. For an event with encrypted content, [DecryptOlmEvent] checks in
    this order: an algorithm other than Olm v1 gives
    [UnsupportedAlgorithm]; no ciphertext under the curve25519 key of
    the local account gives [NotEncryptedForMe]; a message type that is
    neither PreKey nor Msg gives [UnsupportedOlmMessageType].  Each
    returns at once: the world is unchanged and no collaborator has been
    called. *)
Theorem DecryptOlmEvent_input_errors evt content w :
  event.Parsed (event.Content_ evt) = event.ParsedEncrypted content →
  (event.Algorithm content ≠ id.AlgorithmOlmV1 →
   DecryptOlmEvent evt w = (Err (Sentinel UnsupportedAlgorithm), w, []))
  ∧ (event.Algorithm content = id.AlgorithmOlmV1 →
     event.OlmCiphertext_ content !! (account_IdentityKeys mach w).2 = None →
     DecryptOlmEvent evt w = (Err (Sentinel NotEncryptedForMe), w, []))
  ∧ (∀ ownContent,
       event.Algorithm content = id.AlgorithmOlmV1 →
       event.OlmCiphertext_ content !! (account_IdentityKeys mach w).2
       = Some ownContent →
       event.Type_ ownContent ≠ id.OlmMsgTypePreKey →
       event.Type_ ownContent ≠ id.OlmMsgTypeMsg →
       DecryptOlmEvent evt w = (Err (Sentinel UnsupportedOlmMessageType), w, [])).
Proof.
  intros HC. unfold DecryptOlmEvent. rewrite HC.
  split; [|split].
  - intros Ha. by destruct (decide (event.Algorithm content ≠ _)).
  - intros Ha Hl. destruct (decide (event.Algorithm content ≠ _)); [done|].
    unfold bind, IdentityKeys, read. by rewrite Hl.
  - intros ownContent Ha Hl Hp Hm.
    destruct (decide (event.Algorithm content ≠ _)); [done|].
    unfold bind, IdentityKeys, read. rewrite Hl.
    erewrite decryptOlmEvent_plaintext_error; [done|].
    apply plaintext_unsupported_type. by intros [?|?].
Qed.

(** C9. In the trial pass of a pre-key message, if a call to
    [MatchesInboundSession] returns an error, that call is the last of
    the pass: the sessions before it in store order were each checked
    and rejected, no session after it is checked or decrypted.
    [tryDecryptOlmEvent] returns the error wrapped, [decryptOlmEvent]
    wraps it once more, calls nothing else and emits no unwedging
    signal. *)
Theorem match_check_error_is_returned
    evt senderKey ciphertext w r w' calls pre s ct err post :
  tryDecryptOlmEvent senderKey id.OlmMsgTypePreKey ciphertext w = (r, w', calls) →
  calls = pre ++ CallMatchesInboundSession s ct (Err err) :: post →
  post = []
  ∧ r = Err (errors_Wrap (External err)
               "failed to check if ciphertext matches inbound session")
  ∧ (∃ before later,
       pre = CallGetSessions senderKey (Ok (before ++ s :: later))
             :: map (λ x, CallMatchesInboundSession x ciphertext (Ok false)) before)
  ∧ decryptOlmEvent evt senderKey id.OlmMsgTypePreKey ciphertext w
    = (Err (errors_Wrap
              (errors_Wrap (External err)
                 "failed to check if ciphertext matches inbound session")
              "failed to decrypt olm event"), w', calls)
  ∧ no_unwedging_signal calls.
Proof.
  intros HT Hcalls.
  assert (Hshape : post = []
    ∧ r = Err (errors_Wrap (External err)
                 "failed to check if ciphertext matches inbound session")
    ∧ ∃ before later,
        pre = CallGetSessions senderKey (Ok (before ++ s :: later))
              :: map (λ x, CallMatchesInboundSession x ciphertext (Ok false)) before).
  { revert HT.
    destruct (store_GetSessions mach senderKey w) as [[sessions|e0] w0] eqn:HG.
    - rewrite (tryDecryptOlmEvent_sessions _ _ _ _ _ _ HG).
      destruct (tryDecryptOlmEvent_range _ _ sessions w0)
        as [[r1 w1] calls1] eqn:E.
      rewrite after_run. intros [= <- <- <-].
      destruct pre as [|c pre]; simplify_eq/=.
      destruct (range_match_error_last _ _ _ _ _ _ _ _ _ _ _ E eq_refl)
        as (-> & -> & before & later & -> & ->).
      split; [done|]. split; [done|]. by exists before, later.
    - rewrite (tryDecryptOlmEvent_store_error _ _ _ _ _ _ HG).
      intros [= <- <- <-].
      apply eq_sym, app_cons_singleton in Hcalls as (_ & [=] & _). }
  destruct Hshape as (Hpost & Hr & Hpre). subst r.
  split; [done|]. split; [done|]. split; [done|]. split.
  - apply decryptOlmEvent_plaintext_error.
    by apply plaintext_trial_error; [left| |].
  - by eapply tryDecryptOlmEvent_no_unwedging.
Qed.

(** C10. For an event whose parsed content is not an encrypted-event
    content, [DecryptOlmEvent] returns [IncorrectEncryptedContentType],
    which is none of the eight errors declared with the pipeline; the
    world is unchanged and no collaborator has been called. *)
Theorem DecryptOlmEvent_incorrect_content evt w :
  (∀ content,
      event.Parsed (event.Content_ evt) ≠ event.ParsedEncrypted content) →
  DecryptOlmEvent evt w = (Err (Sentinel IncorrectEncryptedContentType), w, [])
  ∧ IncorrectEncryptedContentType ∉ declared_errors.
Proof.
  intros H. split.
  - unfold DecryptOlmEvent.
    destruct (event.Parsed (event.Content_ evt)) as [|content|]; try done.
    by destruct (H content).
  - unfold declared_errors. intros Hin.
    repeat (apply elem_of_cons in Hin as [Hin|Hin]; [done|]).
    by apply elem_of_nil in Hin.
Qed.

(** ** Further properties of the pipeline *)

(** *** The shape of a trial pass *)

Lemma range_normal_shape olmType ciphertext sessions w r w' calls :
  olmType ≠ id.OlmMsgTypePreKey →
  tryDecryptOlmEvent_range olmType ciphertext sessions w = (r, w', calls) →
  ∃ tried errs w1,
    failing_decrypts mach ciphertext olmType tried w = Some (errs, w1)
    ∧ ((sessions = tried ∧ r = Ok None ∧ w' = w1
        ∧ calls = zip_with (λ s err, CallDecrypt s ciphertext olmType (Err err))
                    tried errs)
       ∨ ∃ s later plaintext,
           sessions = tried ++ s :: later
           ∧ session_Decrypt mach s ciphertext olmType w1 = (Ok plaintext, w')
           ∧ r = Ok plaintext
           ∧ calls = zip_with (λ s err, CallDecrypt s ciphertext olmType (Err err))
                       tried errs
                     ++ [CallDecrypt s ciphertext olmType (Ok plaintext)]).
Proof.
  intros Hty. revert w r w' calls.
  induction sessions as [|s sessions IH]; intros w r w' calls.
  - rewrite range_nil. intros [= <- <- <-]. exists [], [], w. split; [done|].
    by left.
  - destruct (session_Decrypt mach s ciphertext olmType w)
      as [[p|err] w0] eqn:HD.
    + rewrite (range_decrypt_ok _ _ _ _ _ _ _ Hty HD). intros [= <- <- <-].
      exists [], [], w. split; [done|]. right. by exists s, sessions, p.
    + rewrite (range_decrypt_error _ _ _ _ _ _ _ Hty HD).
      destruct (tryDecryptOlmEvent_range _ _ sessions w0)
        as [[r1 w2] calls2] eqn:E.
      rewrite after_run. intros [= <- <- <-].
      destruct (IH _ _ _ _ E) as (tried & errs & w1 & HF & Hcases).
      exists (s :: tried), (err :: errs), w1. split.
      { simpl. by rewrite HD, HF. }
      destruct Hcases as [(-> & -> & -> & ->)|(s1 & later & p & -> & HD1 & -> & ->)].
      * by left.
      * right. by exists s1, later, p.
Qed.

Lemma range_prekey_shape ciphertext sessions w r w' calls :
  tryDecryptOlmEvent_range id.OlmMsgTypePreKey ciphertext sessions w
  = (r, w', calls) →
  ∃ before w1,
    not_matching mach ciphertext before w = Some w1
    ∧ ((sessions = before ∧ r = Ok None ∧ w' = w1
        ∧ calls = map (λ x, CallMatchesInboundSession x ciphertext (Ok false)) before)
       ∨ (∃ s later err,
            sessions = before ++ s :: later
            ∧ session_MatchesInboundSession mach s ciphertext w1 = (Err err, w')
            ∧ r = Err (errors_Wrap (External err)
                         "failed to check if ciphertext matches inbound session")
            ∧ calls = map (λ x, CallMatchesInboundSession x ciphertext (Ok false))
                        before
                      ++ [CallMatchesInboundSession s ciphertext (Err err)])
       ∨ (∃ s later w2 rd,
            sessions = before ++ s :: later
            ∧ session_MatchesInboundSession mach s ciphertext w1 = (Ok true, w2)
            ∧ session_Decrypt mach s ciphertext id.OlmMsgTypePreKey w2 = (rd, w')
            ∧ r = match rd with
                  | Ok plaintext => Ok plaintext
                  | Err _ => Err (Sentinel DecryptionFailedWithMatchingSession)
                  end
            ∧ calls = map (λ x, CallMatchesInboundSession x ciphertext (Ok false))
                        before
                      ++ [CallMatchesInboundSession s ciphertext (Ok true);
                          CallDecrypt s ciphertext id.OlmMsgTypePreKey rd])).
Proof.
  revert w r w' calls.
  induction sessions as [|s sessions IH]; intros w r w' calls.
  - rewrite range_nil. intros [= <- <- <-]. exists [], w. split; [done|].
    by left.
  - destruct (session_MatchesInboundSession mach s ciphertext w)
      as [[[|]|err] w0] eqn:HM.
    + destruct (session_Decrypt mach s ciphertext id.OlmMsgTypePreKey w0)
        as [rd w2] eqn:HD.
      rewrite (range_match_decrypt _ _ _ _ _ _ _ HM HD). intros [= <- <- <-].
      exists [], w. split; [done|]. right. right.
      by exists s, sessions, w0, rd.
    + rewrite (range_no_match _ _ _ _ _ HM).
      destruct (tryDecryptOlmEvent_range _ _ sessions w0)
        as [[r1 w2] calls2] eqn:E.
      rewrite after_run. intros [= <- <- <-].
      destruct (IH _ _ _ _ E) as (before & w1 & HN & Hcases).
      exists (s :: before), w1. split.
      { simpl. by rewrite HM. }
      destruct Hcases as [(-> & -> & -> & ->)
                         |[(s1 & later & err & -> & HM1 & -> & ->)
                          |(s1 & later & w3 & rd & -> & HM1 & HD1 & -> & ->)]].
      * by left.
      * right. left. by exists s1, later, err.
      * right. right. by exists s1, later, w3, rd.
    + rewrite (range_match_error _ _ _ _ _ _ HM). intros [= <- <- <-].
      exists [], w. split; [done|]. right. left. by exists s, sessions, err.
Qed.

(** X1. A trial pass over a pre-key message checks the stored sessions in
    store order and stops at the first one that is not rejected: either
    every session is rejected and the pass is inconclusive, or a match
    check fails and its error is returned wrapped, or one session matches
    and is the only one decrypted.  A session whose match check was
    negative is never decrypted, and no session after the first accepted
    one is touched. *)
Theorem prekey_trial_pass_shape senderKey ciphertext w sessions w0 r w' calls :
  store_GetSessions mach senderKey w = (Ok sessions, w0) →
  tryDecryptOlmEvent senderKey id.OlmMsgTypePreKey ciphertext w = (r, w', calls) →
  ∃ before w1,
    not_matching mach ciphertext before w0 = Some w1
    ∧ ((sessions = before ∧ r = Ok None ∧ w' = w1
        ∧ calls = CallGetSessions senderKey (Ok sessions)
                  :: map (λ x, CallMatchesInboundSession x ciphertext (Ok false))
                       before)
       ∨ (∃ s later err,
            sessions = before ++ s :: later
            ∧ session_MatchesInboundSession mach s ciphertext w1 = (Err err, w')
            ∧ r = Err (errors_Wrap (External err)
                         "failed to check if ciphertext matches inbound session")
            ∧ calls = CallGetSessions senderKey (Ok sessions)
                      :: map (λ x, CallMatchesInboundSession x ciphertext (Ok false))
                           before
                      ++ [CallMatchesInboundSession s ciphertext (Err err)])
       ∨ (∃ s later w2 rd,
            sessions = before ++ s :: later
            ∧ session_MatchesInboundSession mach s ciphertext w1 = (Ok true, w2)
            ∧ session_Decrypt mach s ciphertext id.OlmMsgTypePreKey w2 = (rd, w')
            ∧ r = match rd with
                  | Ok plaintext => Ok plaintext
                  | Err _ => Err (Sentinel DecryptionFailedWithMatchingSession)
                  end
            ∧ calls = CallGetSessions senderKey (Ok sessions)
                      :: map (λ x, CallMatchesInboundSession x ciphertext (Ok false))
                           before
                      ++ [CallMatchesInboundSession s ciphertext (Ok true);
                          CallDecrypt s ciphertext id.OlmMsgTypePreKey rd])).
Proof.
  intros HG. rewrite (tryDecryptOlmEvent_sessions _ _ _ _ _ _ HG).
  destruct (tryDecryptOlmEvent_range _ _ sessions w0) as [[r1 w1] calls1] eqn:E.
  rewrite after_run. intros [= <- <- <-].
  destruct (range_prekey_shape _ _ _ _ _ _ E) as (before & w2 & HN & Hcases).
  exists before, w2. split; [done|].
  destruct Hcases as [(-> & -> & -> & ->)
                     |[(s1 & later & err & -> & HM1 & -> & ->)
                      |(s1 & later & w3 & rd & -> & HM1 & HD1 & -> & ->)]].
  - by left.
  - right. left. by exists s1, later, err.
  - right. right. by exists s1, later, w3, rd.
Qed.

Lemma rejected_call ciphertext (before : list Session) (c : Call Session) :
  c ∈ map (λ x, CallMatchesInboundSession x ciphertext (Ok false)) before →
  ∃ x, c = CallMatchesInboundSession x ciphertext (Ok false).
Proof.
  rewrite list_elem_of_In, in_map_iff. intros (x & <- & _). by exists x.
Qed.

(** C2. For a pre-key message, if in the trial pass some stored session
    passes the [MatchesInboundSession] check and the [Decrypt] of that
    session fails, then: the sessions before it in store order were each
    checked and rejected, the failed decrypt is the last call of the pass
    (no session after the matching one is checked or decrypted), and
    [decryptOlmEvent] logs, signals unwedging for the sender of the event
    and returns [DecryptionFailedWithMatchingSession] wrapped. *)
Theorem matching_session_failure_is_confirmed
    evt senderKey ciphertext w r w' calls s ct1 ct2 olmType err :
  tryDecryptOlmEvent senderKey id.OlmMsgTypePreKey ciphertext w = (r, w', calls) →
  CallMatchesInboundSession s ct1 (Ok true) ∈ calls →
  CallDecrypt s ct2 olmType (Err err) ∈ calls →
  let signalled :=
    calls ++
    [CallLogWarn
       "Found matching session yet decryption failed for sender %s with key %s"
       [event.Sender evt; senderKey];
     CallMarkDeviceForUnwedging (event.Sender evt) senderKey] in
  (∃ before later,
     calls = CallGetSessions senderKey (Ok (before ++ s :: later))
             :: map (λ x, CallMatchesInboundSession x ciphertext (Ok false)) before
             ++ [CallMatchesInboundSession s ciphertext (Ok true);
                 CallDecrypt s ciphertext id.OlmMsgTypePreKey (Err err)])
  ∧ decryptOlmEvent evt senderKey id.OlmMsgTypePreKey ciphertext w
    = (Err (errors_Wrap (Sentinel DecryptionFailedWithMatchingSession)
              "failed to decrypt olm event"),
       mach_markDeviceForUnwedging mach (event.Sender evt) senderKey w', signalled)
  ∧ unwedging_signal (event.Sender evt) senderKey signalled.
Proof.
  intros HT HM HD signalled.
  assert (Hshape : r = Err (Sentinel DecryptionFailedWithMatchingSession)
    ∧ ∃ before later,
        calls = CallGetSessions senderKey (Ok (before ++ s :: later))
                :: map (λ x, CallMatchesInboundSession x ciphertext (Ok false)) before
                ++ [CallMatchesInboundSession s ciphertext (Ok true);
                    CallDecrypt s ciphertext id.OlmMsgTypePreKey (Err err)]).
  { revert HT.
    destruct (store_GetSessions mach senderKey w) as [[sessions|e0] w0] eqn:HG.
    2:{ rewrite (tryDecryptOlmEvent_store_error _ _ _ _ _ _ HG).
        intros [= <- <- <-]. apply list_elem_of_singleton in HM. done. }
    rewrite (tryDecryptOlmEvent_sessions _ _ _ _ _ _ HG).
    destruct (tryDecryptOlmEvent_range _ _ sessions w0) as [[r1 w1] calls1] eqn:E.
    rewrite after_run. intros [= <- <- <-]. simpl in HM, HD.
    apply elem_of_cons in HM as [HM|HM]; [done|].
    apply elem_of_cons in HD as [HD|HD]; [done|].
    destruct (range_prekey_shape _ _ _ _ _ _ E)
      as (before & w2 & _ & [(_ & _ & _ & ->)
                            |[(s1 & later & e1 & _ & _ & _ & ->)
                             |(s1 & later & w3 & rd & -> & _ & _ & -> & ->)]]).
    - by apply rejected_call in HM as [x ?].
    - apply elem_of_app in HM as [HM|HM]; [by apply rejected_call in HM as [x ?]|].
      apply list_elem_of_singleton in HM. done.
    - apply elem_of_app in HM as [HM|HM]; [by apply rejected_call in HM as [x ?]|].
      apply elem_of_app in HD as [HD|HD]; [by apply rejected_call in HD as [x ?]|].
      apply elem_of_cons in HM as [HM|HM];
        [|by apply list_elem_of_singleton in HM].
      apply elem_of_cons in HD as [HD|HD]; [done|].
      apply list_elem_of_singleton in HD.
      injection HM as -> ->. injection HD as _ _ <-.
      split; [done|]. by exists before, later. }
  destruct Hshape as (-> & Hcalls). split; [done|]. split.
  - apply decryptOlmEvent_plaintext_error.
    by apply plaintext_confirmed_failure; [left|].
  - unfold unwedging_signal, signalled. apply elem_of_app. right.
    apply elem_of_cons. right. by apply list_elem_of_singleton.
Qed.

(** X2. A trial pass over a message that is not a pre-key message runs no
    match check: it decrypts with the stored sessions in store order, goes
    past every failure, and stops at the first session whose decrypt
    succeeds, returning its plaintext; if none succeeds the pass is
    inconclusive.  It never returns an error, and no session after the
    successful one is touched. *)
Theorem normal_trial_pass_shape
    senderKey olmType ciphertext w sessions w0 r w' calls :
  olmType ≠ id.OlmMsgTypePreKey →
  store_GetSessions mach senderKey w = (Ok sessions, w0) →
  tryDecryptOlmEvent senderKey olmType ciphertext w = (r, w', calls) →
  ∃ tried errs w1,
    failing_decrypts mach ciphertext olmType tried w0 = Some (errs, w1)
    ∧ ((sessions = tried ∧ r = Ok None ∧ w' = w1
        ∧ calls = CallGetSessions senderKey (Ok sessions)
                  :: zip_with (λ s err, CallDecrypt s ciphertext olmType (Err err))
                       tried errs)
       ∨ ∃ s later plaintext,
           sessions = tried ++ s :: later
           ∧ session_Decrypt mach s ciphertext olmType w1 = (Ok plaintext, w')
           ∧ r = Ok plaintext
           ∧ calls = CallGetSessions senderKey (Ok sessions)
                     :: zip_with (λ s err, CallDecrypt s ciphertext olmType (Err err))
                          tried errs
                     ++ [CallDecrypt s ciphertext olmType (Ok plaintext)]).
Proof.
  intros Hty HG. rewrite (tryDecryptOlmEvent_sessions _ _ _ _ _ _ HG).
  destruct (tryDecryptOlmEvent_range _ _ sessions w0) as [[r1 w1] calls1] eqn:E.
  rewrite after_run. intros [= <- <- <-].
  destruct (range_normal_shape _ _ _ _ _ _ _ Hty E) as (tried & errs & w2 & HF & Hcases).
  exists tried, errs, w2. split; [done|].
  destruct Hcases as [(-> & -> & -> & ->)|(s1 & later & p & -> & HD1 & -> & ->)].
  - by left.
  - right. by exists s1, later, p.
Qed.

(** *** Runs that end well *)

Lemma range_failing_prefix olmType ciphertext pre rest w errs w1 :
  olmType ≠ id.OlmMsgTypePreKey →
  failing_decrypts mach ciphertext olmType pre w = Some (errs, w1) →
  tryDecryptOlmEvent_range olmType ciphertext (pre ++ rest) w
  = after (zip_with (λ x err, CallDecrypt x ciphertext olmType (Err err)) pre errs)
      (tryDecryptOlmEvent_range olmType ciphertext rest w1).
Proof.
  intros Hty. revert w errs.
  induction pre as [|x pre IH]; intros w errs; simpl failing_decrypts.
  - intros [= <- <-]. simpl app.
    by destruct (tryDecryptOlmEvent_range _ _ rest w) as [[??]?].
  - destruct (session_Decrypt mach x ciphertext olmType w)
      as [[p|err] w0] eqn:HD; try done.
    destruct (failing_decrypts mach ciphertext olmType pre w0)
      as [[errs' w2]|] eqn:HF; try done.
    intros [= <- <-]. rewrite <- app_comm_cons.
    rewrite (range_decrypt_error _ _ _ _ _ _ _ Hty HD).
    by rewrite (IH _ _ HF), after_after.
Qed.

(** X3. For a normal message, when the stored sessions before [s] all fail
    to decrypt and [s] decrypts to a non-nil plaintext, the pipeline goes
    on with that plaintext: its result is that of the payload stage, the
    sessions after [s] are not touched, the account and the store are not
    written, and there is no unwedging signal. *)
Theorem first_decrypting_session_wins
    evt senderKey ciphertext w pre s post w0 errs w1 bytes w2 :
  store_GetSessions mach senderKey w = (Ok (pre ++ s :: post), w0) →
  failing_decrypts mach ciphertext id.OlmMsgTypeMsg pre w0 = Some (errs, w1) →
  session_Decrypt mach s ciphertext id.OlmMsgTypeMsg w1 = (Ok (Some bytes), w2) →
  let calls :=
    CallGetSessions senderKey (Ok (pre ++ s :: post))
    :: zip_with (λ x err, CallDecrypt x ciphertext id.OlmMsgTypeMsg (Err err))
         pre errs
    ++ [CallDecrypt s ciphertext id.OlmMsgTypeMsg (Ok (Some bytes))] in
  decryptOlmEvent evt senderKey id.OlmMsgTypeMsg ciphertext w
  = ((decryptOlmEvent_payload evt senderKey (Some bytes) w2).1.1, w2, calls)
  ∧ no_unwedging_signal calls.
Proof.
  intros HG HF HD calls.
  assert (HT : tryDecryptOlmEvent senderKey id.OlmMsgTypeMsg ciphertext w
               = (Ok (Some bytes), w2, calls)).
  { rewrite (tryDecryptOlmEvent_sessions _ _ _ _ _ _ HG).
    rewrite (range_failing_prefix _ _ _ _ _ _ _ Msg_not_PreKey HF).
    rewrite (range_decrypt_ok _ _ _ _ _ _ _ Msg_not_PreKey HD).
    by rewrite !after_run. }
  split.
  - apply decryptOlmEvent_plaintext_ok.
    by apply plaintext_trial_success; [right|].
  - by eapply tryDecryptOlmEvent_no_unwedging.
Qed.

(** X4. For a pre-key message, when the stored sessions before [s] all
    report a negative match, [s] matches and decrypts to a non-nil
    plaintext, the pipeline goes on with that plaintext.  Only [s] has been
    decrypted; no session is created, so no one-time key is used, and there
    is no unwedging signal. *)
Theorem matching_session_decrypts
    evt senderKey ciphertext w pre s post w0 w1 w2 bytes w3 :
  store_GetSessions mach senderKey w = (Ok (pre ++ s :: post), w0) →
  not_matching mach ciphertext pre w0 = Some w1 →
  session_MatchesInboundSession mach s ciphertext w1 = (Ok true, w2) →
  session_Decrypt mach s ciphertext id.OlmMsgTypePreKey w2 = (Ok (Some bytes), w3) →
  let calls :=
    CallGetSessions senderKey (Ok (pre ++ s :: post))
    :: map (λ x, CallMatchesInboundSession x ciphertext (Ok false)) pre
    ++ [CallMatchesInboundSession s ciphertext (Ok true);
        CallDecrypt s ciphertext id.OlmMsgTypePreKey (Ok (Some bytes))] in
  decryptOlmEvent evt senderKey id.OlmMsgTypePreKey ciphertext w
  = ((decryptOlmEvent_payload evt senderKey (Some bytes) w3).1.1, w3, calls)
  ∧ no_unwedging_signal calls.
Proof.
  intros HG HS HM HD calls.
  assert (HT : tryDecryptOlmEvent senderKey id.OlmMsgTypePreKey ciphertext w
               = (Ok (Some bytes), w3, calls)).
  { rewrite (tryDecryptOlmEvent_sessions _ _ _ _ _ _ HG).
    rewrite (range_not_matching _ _ _ _ _ HS).
    rewrite (range_match_decrypt _ _ _ _ _ _ _ HM HD).
    by rewrite !after_run. }
  split.
  - apply decryptOlmEvent_plaintext_ok.
    by apply plaintext_trial_success; [left|].
  - by eapply tryDecryptOlmEvent_no_unwedging.
Qed.

(** X5. A decrypt that succeeds with a nil plaintext counts for nothing.
    For a normal message, when the sessions before [s] fail and [s]
    returns a nil plaintext without error, the pass stops at [s] and the
    pipeline answers as if every session had failed:
    [DecryptionFailedForNormalMessage] and the unwedging signal, with the
    sessions after [s] never tried. *)
Theorem nil_plaintext_is_exhaustion
    evt senderKey ciphertext w pre s post w0 errs w1 w2 :
  store_GetSessions mach senderKey w = (Ok (pre ++ s :: post), w0) →
  failing_decrypts mach ciphertext id.OlmMsgTypeMsg pre w0 = Some (errs, w1) →
  session_Decrypt mach s ciphertext id.OlmMsgTypeMsg w1 = (Ok None, w2) →
  decryptOlmEvent evt senderKey id.OlmMsgTypeMsg ciphertext w
  = (Err (Sentinel DecryptionFailedForNormalMessage),
     mach_markDeviceForUnwedging mach (event.Sender evt) senderKey w2,
     (CallGetSessions senderKey (Ok (pre ++ s :: post))
      :: zip_with (λ x err, CallDecrypt x ciphertext id.OlmMsgTypeMsg (Err err))
           pre errs
      ++ [CallDecrypt s ciphertext id.OlmMsgTypeMsg (Ok None)])
     ++ [CallMarkDeviceForUnwedging (event.Sender evt) senderKey]).
Proof.
  intros HG HF HD.
  apply decryptOlmEvent_plaintext_error, plaintext_normal_exhausted.
  rewrite (tryDecryptOlmEvent_sessions _ _ _ _ _ _ HG).
  rewrite (range_failing_prefix _ _ _ _ _ _ _ Msg_not_PreKey HF).
  rewrite (range_decrypt_ok _ _ _ _ _ _ _ Msg_not_PreKey HD).
  by rewrite !after_run.
Qed.

(** *** Runs that end on a collaborator's error *)

(** X6. When the store cannot return the sessions of the sender, the
    pipeline returns the store's error under two wraps, the inner one
    naming the sender key; nothing else is called: no session is created
    and no unwedging signal is emitted. *)
Theorem store_error_is_propagated evt senderKey olmType ciphertext w err w0 :
  valid_type olmType →
  store_GetSessions mach senderKey w = (Err err, w0) →
  decryptOlmEvent evt senderKey olmType ciphertext w
  = (Err (Wrap (Wrap (External err) ("failed to get session for " +:+ senderKey))
            "failed to decrypt olm event"),
     w0, [CallGetSessions senderKey (Err err)]).
Proof.
  intros Hty HG. apply decryptOlmEvent_plaintext_error.
  apply plaintext_trial_error; [done|done|].
  by apply tryDecryptOlmEvent_store_error.
Qed.

(** X7. For a pre-key message with an inconclusive trial pass, when the
    account cannot create a session from the message, the pipeline signals
    unwedging and returns the account's error wrapped.  The account is not
    saved and nothing is added to the store. *)
Theorem bootstrap_failure_signals
    evt senderKey ciphertext w w1 calls1 err w2 :
  tryDecryptOlmEvent senderKey id.OlmMsgTypePreKey ciphertext w
  = (Ok None, w1, calls1) →
  account_NewInboundSessionFrom mach senderKey ciphertext w1 = (Err err, w2) →
  decryptOlmEvent evt senderKey id.OlmMsgTypePreKey ciphertext w
  = (Err (Wrap (External err) "failed to create new session from prekey message"),
     mach_markDeviceForUnwedging mach (event.Sender evt) senderKey w2,
     calls1 ++
     [CallNewInboundSessionFrom senderKey ciphertext (Err err);
      CallMarkDeviceForUnwedging (event.Sender evt) senderKey]).
Proof.
  intros HT HN. apply decryptOlmEvent_plaintext_error.
  by rewrite (plaintext_bootstrap_error _ _ _ _ _ _ _ _ _ HT
                (createInboundSession_error _ _ _ _ _ HN)).
Qed.

(** *** Every run of the pipeline *)

Lemma createInboundSession_error_external senderKey ciphertext w err w' calls :
  createInboundSession senderKey ciphertext w = (Err err, w', calls) →
  ∃ text, err = External text.
Proof.
  destruct (account_NewInboundSessionFrom mach senderKey ciphertext w)
    as [[session|e0] w1] eqn:HN.
  - destruct (store_AddSession mach senderKey session (mach_SaveAccount mach w1))
      as [ra w2] eqn:HA.
    by rewrite (createInboundSession_session _ _ _ _ _ _ _ HN HA).
  - rewrite (createInboundSession_error _ _ _ _ _ HN). intros [= <- <- <-].
    by eexists.
Qed.

(** How the first stage ends: with a plaintext, with an error and no
    signal, or with a desync error right after the signal. *)
Lemma plaintext_cases evt senderKey olmType ciphertext w r w' calls :
  decryptOlmEvent_plaintext evt senderKey olmType ciphertext w = (r, w', calls) →
  (∃ plaintext, r = Ok plaintext ∧ no_unwedging_signal calls)
  ∨ (∃ err, r = Err err ∧ no_unwedging_signal calls
       ∧ (err = Sentinel UnsupportedOlmMessageType
          ∨ (∃ text message,
               err = Wrap (Wrap (External text) message) "failed to decrypt olm event")
          ∨ ∃ text,
              err = Wrap (External text)
                      "failed to decrypt olm event with session created from prekey message"))
  ∨ (∃ err calls0, r = Err err ∧ desync_error err
       ∧ calls = calls0 ++ [CallMarkDeviceForUnwedging (event.Sender evt) senderKey]
       ∧ no_unwedging_signal calls0).
Proof.
  destruct (valid_type_dec olmType) as [Hty|Hty].
  2:{ rewrite (plaintext_unsupported_type _ _ _ _ _ Hty). intros [= <- <- <-].
      right. left. eexists. split; [done|]. split; [apply no_unwedging_nil|].
      by left. }
  destruct (tryDecryptOlmEvent senderKey olmType ciphertext w)
    as [[[[bytes|]|err] w0] calls0] eqn:HT.
  - rewrite (plaintext_trial_success _ _ _ _ _ _ _ _ Hty HT). intros [= <- <- <-].
    left. eexists. split; [done|]. by eapply tryDecryptOlmEvent_no_unwedging.
  - destruct Hty as [->| ->].
    + destruct (createInboundSession senderKey ciphertext w0)
        as [[[session|err] w2] calls2] eqn:HC.
      * destruct (session_Decrypt mach session ciphertext id.OlmMsgTypePreKey w2)
          as [rd w3] eqn:HD.
        rewrite (plaintext_bootstrap_decrypt _ _ _ _ _ _ _ _ _ _ _ HT HC HD).
        intros [= <- <- <-].
        assert (Hquiet : no_unwedging_signal
                  (calls0 ++ calls2
                   ++ [CallDecrypt session ciphertext id.OlmMsgTypePreKey rd])).
        { apply no_unwedging_app; [by eapply tryDecryptOlmEvent_no_unwedging|].
          apply no_unwedging_app; [by eapply createInboundSession_no_unwedging|].
          apply no_unwedging_cons; [done|]. apply no_unwedging_nil. }
        destruct rd as [plaintext|err].
        -- left. by eexists.
        -- right. left. eexists. split; [done|]. split; [done|].
           right. right. by eexists.
      * rewrite (plaintext_bootstrap_error _ _ _ _ _ _ _ _ _ HT HC).
        intros [= <- <- <-].
        apply createInboundSession_error_external in HC as HE.
        destruct HE as [text ->].
        right. right. exists (Wrap (External text)
                                "failed to create new session from prekey message"),
                             (calls0 ++ calls2).
        split; [done|]. split; [right; right; by eexists|].
        split; [by rewrite app_assoc|].
        apply no_unwedging_app; [by eapply tryDecryptOlmEvent_no_unwedging|].
        by eapply createInboundSession_no_unwedging.
    + rewrite (plaintext_normal_exhausted _ _ _ _ _ _ HT). intros [= <- <- <-].
      right. right. exists (Sentinel DecryptionFailedForNormalMessage), calls0.
      split; [done|]. split; [right; by left|]. split; [done|].
      by eapply tryDecryptOlmEvent_no_unwedging.
  - destruct (decide (err = Sentinel DecryptionFailedWithMatchingSession)) as [->|Hne].
    + rewrite (plaintext_confirmed_failure _ _ _ _ _ _ _ Hty HT).
      intros [= <- <- <-]. right. right.
      exists (Wrap (Sentinel DecryptionFailedWithMatchingSession)
                "failed to decrypt olm event"),
             (calls0 ++
              [CallLogWarn
                 "Found matching session yet decryption failed for sender %s with key %s"
                 [event.Sender evt; senderKey]]).
      split; [done|]. split; [by left|]. split; [by rewrite <- app_assoc|].
      apply no_unwedging_app; [by eapply tryDecryptOlmEvent_no_unwedging|].
      apply no_unwedging_cons; [done|]. apply no_unwedging_nil.
    + rewrite (plaintext_trial_error _ _ _ _ _ _ _ _ Hty Hne HT).
      intros [= <- <- <-].
      destruct (tryDecryptOlmEvent_error _ _ _ _ _ _ _ HT)
        as [[? _]|(text & message & ->)]; [done|].
      right. left. eexists. split; [done|].
      split; [by eapply tryDecryptOlmEvent_no_unwedging|].
      right. left. by eexists _, _.
Qed.

Lemma payload_error_not_desync evt senderKey plaintext w err w' calls :
  decryptOlmEvent_payload evt senderKey plaintext w = (Err err, w', calls) →
  ¬ desync_error err.
Proof.
  unfold decryptOlmEvent_payload.
  destruct (json_Unmarshal plaintext) as [olmEvt|e0].
  2:{ intros [= <- <- <-] [?|[?|[text ?]]]; done. }
  destruct (decide (event.Sender evt ≠ _)).
  { intros [= <- <- <-] [?|[?|[text ?]]]; done. }
  destruct (decide (client_UserID mach ≠ _)).
  { intros [= <- <- <-] [?|[?|[text ?]]]; done. }
  unfold bind, IdentityKeys, read.
  destruct (decide (_ ≠ Ed25519 _)).
  { intros [= <- <- <-] [?|[?|[text ?]]]; done. }
  destruct (event.ParseRaw _ _ _) as [content [e1|]]; [|done].
  destruct (negb _); [|done].
  intros [= <- <- <-] [?|[?|[text ?]]]; done.
Qed.

Lemma payload_ok_envelope evt senderKey plaintext w r w' calls :
  decryptOlmEvent_payload evt senderKey plaintext w = (Ok r, w', calls) →
  ∃ payload, json_Unmarshal plaintext = Ok payload
             ∧ r = envelope evt senderKey payload (Content r).
Proof.
  unfold decryptOlmEvent_payload.
  destruct (json_Unmarshal plaintext) as [olmEvt|e0]; [|done].
  destruct (decide (event.Sender evt ≠ _)); [done|].
  destruct (decide (client_UserID mach ≠ _)); [done|].
  unfold bind, IdentityKeys, read.
  destruct (decide (_ ≠ Ed25519 _)); [done|].
  destruct (event.ParseRaw _ _ _) as [content [e1|]].
  - destruct (negb _); [done|]. intros [= <- <- <-]. by exists olmEvt.
  - intros [= <- <- <-]. by exists olmEvt.
Qed.

(** X8. An envelope returned by [decryptOlmEvent] is the parsed payload of
    the plaintext the first stage obtained, with its source set to the
    transport event and its sender key to the one the event was decrypted
    under; the other fields of the payload are passed on untouched, except
    the content, which has been through the content parser.  The world
    and the recorded calls of the run are those of the decryption stage:
    parsing and the identity checks change nothing and, apart from reading
    the identity keys of the account, call no collaborator. *)
Theorem envelope_provenance evt senderKey olmType ciphertext w olmEvt w' calls :
  decryptOlmEvent evt senderKey olmType ciphertext w = (Ok olmEvt, w', calls) →
  ∃ plaintext payload,
    decryptOlmEvent_plaintext evt senderKey olmType ciphertext w
    = (Ok plaintext, w', calls)
    ∧ json_Unmarshal plaintext = Ok payload
    ∧ Source olmEvt = Some evt
    ∧ SenderKey olmEvt = senderKey
    ∧ Sender olmEvt = Sender payload
    ∧ SenderDevice olmEvt = SenderDevice payload
    ∧ Keys olmEvt = Keys payload
    ∧ Recipient olmEvt = Recipient payload
    ∧ RecipientKeys olmEvt = RecipientKeys payload
    ∧ Type_ olmEvt = Type_ payload.
Proof.
  destruct (decryptOlmEvent_plaintext evt senderKey olmType ciphertext w)
    as [[[plaintext|err] w1] calls1] eqn:HP.
  - rewrite (decryptOlmEvent_plaintext_ok _ _ _ _ _ _ _ _ HP).
    intros [= Hr <- <-].
    assert (Hrun : decryptOlmEvent_payload evt senderKey plaintext w1
                   = (Ok olmEvt, w1, [])) by by rewrite payload_pure, Hr.
    apply payload_ok_envelope in Hrun as (payload & HJ & Henv).
    exists plaintext, payload. split; [done|]. split; [done|].
    rewrite Henv. done.
  - by rewrite (decryptOlmEvent_plaintext_error _ _ _ _ _ _ _ _ HP).
Qed.

Lemma unwedging_signal_last (calls0 : list (Call Session)) sender key sender' key' :
  no_unwedging_signal calls0 →
  unwedging_signal sender' key' (calls0 ++ [CallMarkDeviceForUnwedging sender key]) →
  sender' = sender ∧ key' = key.
Proof.
  intros H0 Hin. apply elem_of_app in Hin as [Hin|Hin].
  - by apply H0 in Hin.
  - apply list_elem_of_singleton in Hin. by injection Hin.
Qed.

(** X9. [decryptOlmEvent] emits the unwedging signal exactly when it
    returns one of the three desync errors (confirmed failure of a
    matching session, exhaustion of a normal message, failure to create a
    session).  The signal is then the last call of the run, it is the only
    one, and it names the sender of the transport event and the sender key
    the event was decrypted under.  In particular a run that returns an
    envelope, an input error, a mismatch or a parse error signals
    nothing. *)
Theorem unwedging_exactly_on_desync
    evt senderKey olmType ciphertext w r w' calls :
  decryptOlmEvent evt senderKey olmType ciphertext w = (r, w', calls) →
  ((∃ sender key, unwedging_signal sender key calls)
   ↔ ∃ err, r = Err err ∧ desync_error err)
  ∧ (∀ sender key,
       unwedging_signal sender key calls →
       sender = event.Sender evt ∧ key = senderKey
       ∧ ∃ calls0,
           calls = calls0 ++ [CallMarkDeviceForUnwedging sender key]
           ∧ no_unwedging_signal calls0).
Proof.
  destruct (decryptOlmEvent_plaintext evt senderKey olmType ciphertext w)
    as [[[plaintext|err] w1] calls1] eqn:HP.
  - rewrite (decryptOlmEvent_plaintext_ok _ _ _ _ _ _ _ _ HP).
    intros [= <- <- <-].
    pose proof (plaintext_ok_no_unwedging _ _ _ _ _ _ _ _ HP) as Hquiet.
    split; [split|].
    + intros (sender & key & Hin). by apply Hquiet in Hin.
    + intros (err & Hr & Hd). exfalso.
      assert (Hrun : decryptOlmEvent_payload evt senderKey plaintext w1
                     = (Err err, w1, [])) by by rewrite payload_pure, Hr.
      by apply payload_error_not_desync in Hrun.
    + intros sender key Hin. by apply Hquiet in Hin.
  - rewrite (decryptOlmEvent_plaintext_error _ _ _ _ _ _ _ _ HP).
    intros [= <- <- <-].
    destruct (plaintext_cases _ _ _ _ _ _ _ _ HP)
      as [(p & [=] & _)
         |[(e & [= <-] & Hquiet & Hshape)
          |(e & calls0 & [= <-] & Hd & -> & Hquiet)]].
    + split; [split|].
      * intros (sender & key & Hin). by apply Hquiet in Hin.
      * intros (e & [= <-] & Hd). exfalso.
        destruct Hshape as [->|[(text & message & ->)|(text & ->)]];
          destruct Hd as [?|[?|[t ?]]]; done.
      * intros sender key Hin. by apply Hquiet in Hin.
    + split; [split|].
      * intros _. by exists err.
      * intros _. exists (event.Sender evt), senderKey.
        apply elem_of_app. right. by apply list_elem_of_singleton.
      * intros sender key Hin.
        destruct (unwedging_signal_last _ _ _ _ _ Hquiet Hin) as [-> ->].
        split; [done|]. split; [done|]. by exists calls0.
Qed.

Ltac in_list := rewrite !elem_of_cons; repeat (first [by left | right]).

Lemma decryptOlmEvent_errors evt senderKey olmType ciphertext w err w' calls :
  decryptOlmEvent evt senderKey olmType ciphertext w = (Err err, w', calls) →
  pipeline_error err.
Proof.
  destruct (decryptOlmEvent_plaintext evt senderKey olmType ciphertext w)
    as [[[plaintext|e0] w1] calls1] eqn:HP.
  - rewrite (decryptOlmEvent_plaintext_ok _ _ _ _ _ _ _ _ HP).
    intros [= Hr <- <-].
    assert (Hrun : decryptOlmEvent_payload evt senderKey plaintext w1
                   = (Err err, w1, [])) by by rewrite payload_pure, Hr.
    apply payload_error in Hrun as [->|[->|[->|(text & message & ->)]]].
    + left. in_list.
    + left. in_list.
    + left. in_list.
    + right. by exists (External text), message, text.
  - rewrite (decryptOlmEvent_plaintext_error _ _ _ _ _ _ _ _ HP).
    intros [= <- <- <-].
    destruct (plaintext_cases _ _ _ _ _ _ _ _ HP)
      as [(p & [=] & _)
         |[(e & [= <-] & _ & [->|[(text & message & ->)|(text & ->)]])
          |(e & calls0 & [= <-] & [->|[->|(text & ->)]] & _)]].
    + left. in_list.
    + right. by exists (Wrap (External text) message), "failed to decrypt olm event", text.
    + right. by eexists (External text), _, text.
    + left. in_list.
    + left. in_list.
    + right. by eexists (External text), _, text.
Qed.

(** X10. The errors of the entry point.  An error returned by
    [DecryptOlmEvent] is one of the three input errors
    ([IncorrectEncryptedContentType], [UnsupportedAlgorithm],
    [NotEncryptedForMe]), or one of [UnsupportedOlmMessageType],
    [DecryptionFailedForNormalMessage], [SenderMismatch],
    [RecipientMismatch], [RecipientKeyMismatch] as they are, or
    [DecryptionFailedWithMatchingSession] wrapped once, or a wrapped error
    of a collaborator.  An error of the store, of libolm or of the JSON
    decoder is never returned bare, and the confirmed failure is never
    returned unwrapped. *)
Theorem DecryptOlmEvent_errors evt w err w' calls :
  DecryptOlmEvent evt w = (Err err, w', calls) →
  err ∈ [Sentinel IncorrectEncryptedContentType; Sentinel UnsupportedAlgorithm;
         Sentinel NotEncryptedForMe]
  ∨ pipeline_error err.
Proof.
  unfold DecryptOlmEvent.
  destruct (event.Parsed (event.Content_ evt)) as [|content|].
  - intros [= <- <- <-]. left. in_list.
  - destruct (decide (event.Algorithm content ≠ _)).
    { intros [= <- <- <-]. left. in_list. }
    unfold bind at 1. unfold IdentityKeys, read.
    destruct (event.OlmCiphertext_ content !! _) as [ownContent|].
    + destruct (decryptOlmEvent evt _ _ _ w) as [[r1 w1] calls1] eqn:E.
      intros [= -> <- <-]. right. by eapply decryptOlmEvent_errors.
    + intros [= <- <- <-]. left. in_list.
  - intros [= <- <- <-]. left. in_list.
Qed.

Lemma zip_with_normal_calls ciphertext olmType (l : list Session) errs :
  Forall (normal_call (Session:=Session))
    (zip_with (λ s err, CallDecrypt s ciphertext olmType (Err err)) l errs).
Proof.
  revert errs. induction l as [|s l IH]; intros [|err errs]; simpl;
    try constructor; [done|apply IH].
Qed.

(** X11. A message whose type is not PreKey never changes the account and
    never writes to the store: no match check is run, no session is
    created (so no one-time key is used), the account is not saved, nothing
    is added to the store and nothing is logged.  Apart from reading the
    identity keys of the account, the calls of the run are the read of the
    stored sessions, decrypt attempts and the unwedging signal. *)
Theorem normal_message_calls evt senderKey olmType ciphertext w r w' calls :
  olmType ≠ id.OlmMsgTypePreKey →
  decryptOlmEvent evt senderKey olmType ciphertext w = (r, w', calls) →
  Forall (normal_call (Session:=Session)) calls.
Proof.
  intros Hpk.
  destruct (valid_type_dec olmType) as [Hty|Hty].
  2:{ rewrite (decryptOlmEvent_plaintext_error _ _ _ _ _ _ _ _
                 (plaintext_unsupported_type evt senderKey _ ciphertext w Hty)).
      intros [= <- <- <-]. constructor. }
  destruct Hty as [->| ->]; [done|].
  destruct (store_GetSessions mach senderKey w) as [[sessions|err] w0] eqn:HG.
  2:{ pose proof (tryDecryptOlmEvent_store_error _ id.OlmMsgTypeMsg ciphertext
                    _ _ _ HG) as HT.
      assert (Hne : Wrap (External err) ("failed to get session for " +:+ senderKey)
                    ≠ Sentinel DecryptionFailedWithMatchingSession) by done.
      rewrite (decryptOlmEvent_plaintext_error _ _ _ _ _ _ _ _
                 (plaintext_trial_error evt _ _ _ _ _ _ _ ltac:(by right) Hne HT)).
      intros [= <- <- <-]. by repeat constructor. }
  destruct (tryDecryptOlmEvent senderKey id.OlmMsgTypeMsg ciphertext w)
    as [[r1 w1] calls1] eqn:HT.
  assert (Hcalls1 : Forall (normal_call (Session:=Session)) calls1).
  { revert HT. rewrite (tryDecryptOlmEvent_sessions _ _ _ _ _ _ HG).
    destruct (tryDecryptOlmEvent_range _ _ sessions w0) as [[r2 w2] calls2] eqn:E.
    rewrite after_run. intros [= <- <- <-].
    destruct (range_normal_shape _ _ _ _ _ _ _ Msg_not_PreKey E)
      as (tried & errs & w3 & _ & [(_ & _ & _ & ->)|(s & later & p & _ & _ & _ & ->)]).
    - constructor; [done|]. apply zip_with_normal_calls.
    - constructor; [done|]. apply Forall_app. split.
      + apply zip_with_normal_calls.
      + by repeat constructor. }
  destruct r1 as [[bytes|]|e1].
  - rewrite (decryptOlmEvent_plaintext_ok _ _ _ _ _ _ _ _
               (plaintext_trial_success evt _ _ _ _ _ _ _ ltac:(by right) HT)).
    by intros [= <- <- <-].
  - rewrite (decryptOlmEvent_plaintext_error _ _ _ _ _ _ _ _
               (plaintext_normal_exhausted evt _ _ _ _ _ HT)).
    intros [= <- <- <-]. apply Forall_app. split; [done|]. by repeat constructor.
  - destruct (range_not_prekey id.OlmMsgTypeMsg ciphertext sessions w0 Msg_not_PreKey)
      as [p Hp].
    rewrite (tryDecryptOlmEvent_sessions _ _ _ _ _ _ HG) in HT.
    destruct (tryDecryptOlmEvent_range _ _ sessions w0) as [[r2 w2] calls2].
    rewrite after_run in HT. simpl in Hp. by simplify_eq.
Qed.
End Properties.




(** ** The theorems on the concrete machine *)

Lemma decryptOlmEvent_authenticates_witness :
  Toy.run_decryptOlmEvent
    (Ok [Toy.carrying (Some [Byte.x01; Byte.x00; Byte.x00; Byte.x00])])
    (Err "BAD_MESSAGE_FORMAT") None
    (Toy.alice_event event.ParsedNil) "SENDER1" id.OlmMsgTypeMsg "BODY"
  = (Err (Sentinel SenderMismatch), ["ratchet of S5"],
     [CallGetSessions "SENDER1"
        (Ok [Toy.carrying (Some [Byte.x01; Byte.x00; Byte.x00; Byte.x00])]);
      CallDecrypt (Toy.carrying (Some [Byte.x01; Byte.x00; Byte.x00; Byte.x00]))
        "BODY" id.OlmMsgTypeMsg
        (Ok (Some [Byte.x01; Byte.x00; Byte.x00; Byte.x00]))]).
Proof.
  eapply (decryptOlmEvent_authenticates Toy.json_Unmarshal Toy.TypeMap).
  - reflexivity.
  - reflexivity.
  - simpl. discriminate.
Defined.

Lemma first_match_failure_is_confirmed_witness :
  Toy.run_decryptOlmEvent
    (Ok [Toy.stranger; Toy.wedged; Toy.healthy]) (Err "BAD_MESSAGE_FORMAT") None
    (Toy.alice_event event.ParsedNil) "SENDER1" id.OlmMsgTypePreKey "BODY"
  = (Err (Wrap (Sentinel DecryptionFailedWithMatchingSession)
            "failed to decrypt olm event"),
     ["ratchet of S2"; "unwedge @alice:example.com"],
     [CallGetSessions "SENDER1" (Ok [Toy.stranger; Toy.wedged; Toy.healthy]);
      CallMatchesInboundSession Toy.stranger "BODY" (Ok false);
      CallMatchesInboundSession Toy.wedged "BODY" (Ok true);
      CallDecrypt Toy.wedged "BODY" id.OlmMsgTypePreKey (Err "BAD_MESSAGE_MAC");
      CallLogWarn
        "Found matching session yet decryption failed for sender %s with key %s"
        ["@alice:example.com"; "SENDER1"];
      CallMarkDeviceForUnwedging "@alice:example.com" "SENDER1"]).
Proof.
  apply (first_match_failure_is_confirmed Toy.json_Unmarshal Toy.TypeMap
           (Toy.machine (Ok [Toy.stranger; Toy.wedged; Toy.healthy])
              (Err "BAD_MESSAGE_FORMAT") None)
           (Toy.alice_event event.ParsedNil) "SENDER1" "BODY" []
           [Toy.stranger] Toy.wedged [Toy.healthy]
           [] [] [] "BAD_MESSAGE_MAC" ["ratchet of S2"]).
  - reflexivity.
  - reflexivity.
  - reflexivity.
  - reflexivity.
Defined.

(** Should two stored sessions ever pass the match check for the same
    pre-key message, only the first in store order is tried: here it
    decrypts, the pipeline returns the envelope, and the second session,
    which could not have decrypted the message, is never reached. *)
Example first_of_two_matching_sessions_wins :
  let mach := Toy.machine (Ok [Toy.healthy; Toy.wedged])
                (Err "BAD_MESSAGE_FORMAT") None in
  let run := decryptOlmEvent Toy.json_Unmarshal Toy.TypeMap mach
               (Toy.alice_event event.ParsedNil) "SENDER1"
               id.OlmMsgTypePreKey "BODY" [] in
  (store_GetSessions mach "SENDER1" [] = (Ok [Toy.healthy; Toy.wedged], [])
   ∧ Toy.wedged ∈ [Toy.healthy; Toy.wedged]
   ∧ (∀ w, (session_MatchesInboundSession mach Toy.wedged "BODY" w).1 = Ok true)
   ∧ (∀ w, (session_Decrypt mach Toy.wedged "BODY" id.OlmMsgTypePreKey w).1
           = Err "BAD_MESSAGE_MAC"))
  ∧ (∃ olmEvt, run.1.1 = Ok olmEvt)
  ∧ run.1.1 ≠ Err (Wrap (Sentinel DecryptionFailedWithMatchingSession)
                     "failed to decrypt olm event")
  ∧ ¬ unwedging_signal "@alice:example.com" "SENDER1" run.2.
Proof.
  split; [|split; [|split]].
  - split; [reflexivity|]. split; [|split; reflexivity].
    apply elem_of_cons. right. apply elem_of_cons. by left.
  - eexists. reflexivity.
  - discriminate.
  - unfold unwedging_signal. intros Hin. vm_compute in Hin.
    repeat (apply elem_of_cons in Hin as [Hin|Hin]; [discriminate|]).
    by apply elem_of_nil in Hin.
Qed.

Lemma normal_message_exhaustion_witness :
  Toy.run_decryptOlmEvent
    (Ok [Toy.stranger; Toy.wedged]) (Err "BAD_MESSAGE_FORMAT") None
    (Toy.alice_event event.ParsedNil) "SENDER1" id.OlmMsgTypeMsg "BODY"
  = (Err (Sentinel DecryptionFailedForNormalMessage),
     ["ratchet of S1"; "ratchet of S2"; "unwedge @alice:example.com"],
     [CallGetSessions "SENDER1" (Ok [Toy.stranger; Toy.wedged]);
      CallDecrypt Toy.stranger "BODY" id.OlmMsgTypeMsg (Err "BAD_MESSAGE_MAC");
      CallDecrypt Toy.wedged "BODY" id.OlmMsgTypeMsg (Err "BAD_MESSAGE_MAC");
      CallMarkDeviceForUnwedging "@alice:example.com" "SENDER1"]).
Proof.
  refine (proj1 (proj1 (normal_message_exhaustion Toy.json_Unmarshal Toy.TypeMap
                          (Toy.machine (Ok [Toy.stranger; Toy.wedged])
                             (Err "BAD_MESSAGE_FORMAT") None)
                          (Toy.alice_event event.ParsedNil) "SENDER1" "BODY" [])
                   [Toy.stranger; Toy.wedged] []
                   ["BAD_MESSAGE_MAC"; "BAD_MESSAGE_MAC"]
                   ["ratchet of S1"; "ratchet of S2"] _ _)).
  - reflexivity.
  - reflexivity.
Defined.

Lemma new_session_failure_without_signal_witness :
  no_unwedging_signal
    (Toy.run_decryptOlmEvent (Ok [Toy.stranger]) (Ok Toy.wedged) None
       (Toy.alice_event event.ParsedNil) "SENDER1" id.OlmMsgTypePreKey "BODY").2.
Proof.
  eapply (new_session_failure_without_signal Toy.json_Unmarshal Toy.TypeMap
            (Toy.machine (Ok [Toy.stranger]) (Ok Toy.wedged) None)
            (Toy.alice_event event.ParsedNil) "SENDER1" "BODY" []).
  - reflexivity.
  - reflexivity.
  - reflexivity.
  - reflexivity.
  - reflexivity.
Defined.

(** C4 as stated fails: no stored session matches, a session is created
    from the pre-key message and cannot decrypt it.  The pipeline returns
    the wrapped decrypt error and calls [markDeviceForUnwedging] nowhere. *)
Lemma new_session_failure_counterexample :
  let mach := Toy.machine (Ok [Toy.stranger]) (Ok Toy.wedged) None in
  let run := decryptOlmEvent Toy.json_Unmarshal Toy.TypeMap mach
               (Toy.alice_event event.ParsedNil) "SENDER1"
               id.OlmMsgTypePreKey "BODY" [] in
  ((tryDecryptOlmEvent mach "SENDER1" id.OlmMsgTypePreKey "BODY" []).1.1 = Ok None
   ∧ (createInboundSession mach "SENDER1" "BODY" []).1.1 = Ok Toy.wedged
   ∧ (∀ w, (session_Decrypt mach Toy.wedged "BODY" id.OlmMsgTypePreKey w).1
           = Err "BAD_MESSAGE_MAC"))
  ∧ run.1.1 = Err (Wrap (External "BAD_MESSAGE_MAC")
                     "failed to decrypt olm event with session created from prekey message")
  ∧ ¬ ∃ sender senderKey, unwedging_signal sender senderKey run.2.
Proof.
  split; [|split].
  - repeat split; reflexivity.
  - reflexivity.
  - unfold unwedging_signal. intros (sender & senderKey & Hin). vm_compute in Hin.
    repeat (apply elem_of_cons in Hin as [Hin|Hin]; [discriminate|]).
    by apply elem_of_nil in Hin.
Qed.

Lemma new_session_failure_is_terminal_witness :
  Toy.run_decryptOlmEvent (Ok [Toy.stranger]) (Ok Toy.wedged) (Some "disk full")
    (Toy.alice_event event.ParsedNil) "SENDER1" id.OlmMsgTypePreKey "BODY"
  = (Err (Wrap (External "BAD_MESSAGE_MAC")
            "failed to decrypt olm event with session created from prekey message"),
     ["one-time key used by S2"; "account saved"; "ratchet of S2"],
     [CallGetSessions "SENDER1" (Ok [Toy.stranger]);
      CallMatchesInboundSession Toy.stranger "BODY" (Ok false);
      CallNewInboundSessionFrom "SENDER1" "BODY" (Ok Toy.wedged);
      CallSaveAccount;
      CallAddSession "SENDER1" Toy.wedged (Some "disk full");
      CallLogError "Failed to store created inbound session: %v" "disk full";
      CallDecrypt Toy.wedged "BODY" id.OlmMsgTypePreKey (Err "BAD_MESSAGE_MAC")]).
Proof.
  apply (new_session_failure_is_terminal Toy.json_Unmarshal Toy.TypeMap
           (Toy.machine (Ok [Toy.stranger]) (Ok Toy.wedged) (Some "disk full"))
           (Toy.alice_event event.ParsedNil) "SENDER1" "BODY" []
           []
           [CallGetSessions "SENDER1" (Ok [Toy.stranger]);
            CallMatchesInboundSession Toy.stranger "BODY" (Ok false)]
           Toy.wedged ["one-time key used by S2"] (Some "disk full")
           ["one-time key used by S2"; "account saved"] "BAD_MESSAGE_MAC"
           ["one-time key used by S2"; "account saved"; "ratchet of S2"]).
  - reflexivity.
  - reflexivity.
  - reflexivity.
  - reflexivity.
Defined.

Lemma decryptOlmEvent_content_tolerance_witness :
  let unknown := Some [Byte.x00; Byte.x00; Byte.x00; Byte.x02] in
  ∃ olmEvt,
    Toy.run_decryptOlmEvent (Ok [Toy.carrying unknown]) (Err "BAD_MESSAGE_FORMAT")
      None (Toy.alice_event event.ParsedNil) "SENDER1" id.OlmMsgTypeMsg "BODY"
    = (Ok olmEvt, ["ratchet of S5"],
       [CallGetSessions "SENDER1" (Ok [Toy.carrying unknown]);
        CallDecrypt (Toy.carrying unknown) "BODY" id.OlmMsgTypeMsg (Ok unknown)])
    ∧ Type_ olmEvt = "org.example.unknown"
    ∧ Content olmEvt
      = {| event.VeryRaw := [Byte.x02]; event.Parsed := event.ParsedNil |}.
Proof.
  intros unknown. eexists. split.
  - eapply (decryptOlmEvent_content_tolerance Toy.json_Unmarshal Toy.TypeMap).
    + reflexivity.
    + reflexivity.
    + repeat split.
    + reflexivity.
  - split; reflexivity.
Defined.

Lemma createInboundSession_saves_then_stores_witness :
  createInboundSession
    (Toy.machine (Ok []) (Ok Toy.healthy) (Some "disk full")) "SENDER1" "BODY" []
  = (Ok Toy.healthy, ["one-time key used by S3"; "account saved"],
     [CallNewInboundSessionFrom "SENDER1" "BODY" (Ok Toy.healthy);
      CallSaveAccount;
      CallAddSession "SENDER1" Toy.healthy (Some "disk full");
      CallLogError "Failed to store created inbound session: %v" "disk full"]).
Proof.
  refine (proj1 (createInboundSession_saves_then_stores Toy.json_Unmarshal
                   Toy.TypeMap
                   (Toy.machine (Ok []) (Ok Toy.healthy) (Some "disk full"))
                   "SENDER1" "BODY" [] Toy.healthy ["one-time key used by S3"]
                   (Some "disk full")
                   ["one-time key used by S3"; "account saved"] _ _)).
  - reflexivity.
  - reflexivity.
Defined.

Lemma DecryptOlmEvent_input_errors_witness :
  Toy.run_DecryptOlmEvent (Ok [Toy.healthy]) (Ok Toy.healthy) None
    (Toy.alice_event (event.ParsedEncrypted
       (Toy.olm_content "m.megolm.v1.aes-sha2" "ACC1" id.OlmMsgTypePreKey)))
  = (Err (Sentinel UnsupportedAlgorithm), [], []).
Proof.
  eapply (DecryptOlmEvent_input_errors Toy.json_Unmarshal Toy.TypeMap).
  - reflexivity.
  - discriminate.
Defined.

Lemma match_check_error_is_returned_witness :
  Toy.run_decryptOlmEvent
    (Ok [Toy.stranger; Toy.corrupt; Toy.healthy]) (Ok Toy.healthy) None
    (Toy.alice_event event.ParsedNil) "SENDER1" id.OlmMsgTypePreKey "BODY"
  = (Err (Wrap (Wrap (External "INVALID_BASE64")
                  "failed to check if ciphertext matches inbound session")
            "failed to decrypt olm event"),
     [],
     [CallGetSessions "SENDER1" (Ok [Toy.stranger; Toy.corrupt; Toy.healthy]);
      CallMatchesInboundSession Toy.stranger "BODY" (Ok false)]
     ++ CallMatchesInboundSession Toy.corrupt "BODY" (Err "INVALID_BASE64") :: []).
Proof.
  eapply (match_check_error_is_returned Toy.json_Unmarshal Toy.TypeMap
            (Toy.machine (Ok [Toy.stranger; Toy.corrupt; Toy.healthy])
               (Ok Toy.healthy) None)).
  - reflexivity.
  - reflexivity.
Defined.

Lemma DecryptOlmEvent_incorrect_content_witness :
  Toy.run_DecryptOlmEvent (Ok [Toy.healthy]) (Ok Toy.healthy) None
    (Toy.alice_event (event.ParsedOther "MessageEventContent" []))
  = (Err (Sentinel IncorrectEncryptedContentType), [], []).
Proof.
  eapply (DecryptOlmEvent_incorrect_content Toy.json_Unmarshal Toy.TypeMap).
  discriminate.
Defined.

(** The scenario of the specification: one stored session that does not
    match the pre-key message, a session created from it, the payload from
    alice to bob. *)
Example toy_scenario :
  let unrelated := {| Toy.name := "S1"; Toy.matches := Ok false;
                      Toy.decrypts := Err "BAD_MESSAGE_MAC" |} in
  let fresh := {| Toy.name := "S2"; Toy.matches := Ok true;
                  Toy.decrypts := Ok Toy.honest |} in
  ∃ olmEvt w calls,
    Toy.run_DecryptOlmEvent (Ok [unrelated]) (Ok fresh) None
      (Toy.alice_event (event.ParsedEncrypted
         (Toy.olm_content id.AlgorithmOlmV1 "ACC1" id.OlmMsgTypePreKey)))
    = (Ok olmEvt, w, calls)
    ∧ SenderKey olmEvt = "SENDER1"
    ∧ Sender olmEvt = "@alice:example.com"
    ∧ w = ["one-time key used by S2"; "account saved"; "stored S2"; "ratchet of S2"].
Proof. vm_compute. eauto 10. Qed.

(** ** One-time keys (requests.go) *)

Section OneTimeKeyProperties.
Context {Any : Type}.
Context (json_Unmarshal_serializableOTK :
           list Byte.byte → mautrix.OneTimeKey Any
           → mautrix.OneTimeKey Any * option string).
Context (json_Unmarshal_string : list Byte.byte → string * option string).
Context (json_Marshal_serializableOTK :
           mautrix.OneTimeKey Any → Foreign (list Byte.byte)).
Context (json_Marshal_string : string → Foreign (list Byte.byte)).

Local Abbreviation UnmarshalJSON :=
  (mautrix.UnmarshalJSON json_Unmarshal_serializableOTK json_Unmarshal_string).
Local Abbreviation MarshalJSON :=
  (mautrix.MarshalJSON json_Marshal_serializableOTK json_Marshal_string).

(** X12. Round trip of an unsigned key.  A key that is not marked signed
    is written as its key text alone.  When the JSON decoder reads that
    text back as a string and refuses it as a struct, [UnmarshalJSON]
    gives a key with the same text, not signed, and with no signatures
    and no unsigned data, whatever the key written and the key decoded
    into held in those fields. *)
Theorem unsigned_key_round_trip (otk target : mautrix.OneTimeKey Any) data :
  mautrix.IsSigned otk = false →
  json_Marshal_string (mautrix.Key otk) = Ok data →
  (json_Unmarshal_serializableOTK data target).2 ≠ None →
  json_Unmarshal_string data = (mautrix.Key otk, None) →
  MarshalJSON otk = Ok data
  ∧ UnmarshalJSON target data
    = ({| mautrix.Key := mautrix.Key otk; mautrix.IsSigned := false;
          mautrix.Signatures_ := None; mautrix.Unsigned := None |}, None).
Proof.
  intros Hs Hm Ho Hd. split.
  - unfold mautrix.MarshalJSON. by rewrite Hs.
  - unfold mautrix.UnmarshalJSON.
    destruct (json_Unmarshal_serializableOTK data target) as [otk1 [e|]];
      [|done].
    by rewrite Hd.
Qed.

(** X13. Round trip of a signed key.  A key marked signed is written as a
    struct.  The mark itself is not part of the JSON; when the decoder
    accepts the data and gives back the three written fields,
    [UnmarshalJSON] returns the key that was written, the mark set again,
    whatever the mark of the key decoded into was. *)
Theorem signed_key_round_trip (otk target decoded : mautrix.OneTimeKey Any) data :
  mautrix.IsSigned otk = true →
  json_Marshal_serializableOTK otk = Ok data →
  json_Unmarshal_serializableOTK data target = (decoded, None) →
  mautrix.Key decoded = mautrix.Key otk →
  mautrix.Signatures_ decoded = mautrix.Signatures_ otk →
  mautrix.Unsigned decoded = mautrix.Unsigned otk →
  MarshalJSON otk = Ok data ∧ UnmarshalJSON target data = (otk, None).
Proof.
  intros Hs Hm Hd Hk Hsig Hu. split.
  - unfold mautrix.MarshalJSON. by rewrite Hs.
  - unfold mautrix.UnmarshalJSON. rewrite Hd, Hk, Hsig, Hu.
    destruct otk; simpl in *; by subst.
Qed.

(** X14. What was read as a string is written as a string.  When
    [UnmarshalJSON] succeeds, [MarshalJSON] of the key it produced uses
    the struct encoder if the data had decoded as a struct, and otherwise
    the string encoder, on the text the string decoder had read. *)
Theorem remarshal_keeps_shape (target otk : mautrix.OneTimeKey Any) data :
  UnmarshalJSON target data = (otk, None) →
  ((json_Unmarshal_serializableOTK data target).2 = None →
   MarshalJSON otk = json_Marshal_serializableOTK otk)
  ∧ ((json_Unmarshal_serializableOTK data target).2 ≠ None →
     MarshalJSON otk = json_Marshal_string (json_Unmarshal_string data).1).
Proof.
  unfold mautrix.UnmarshalJSON, mautrix.MarshalJSON.
  destruct (json_Unmarshal_serializableOTK data target) as [otk1 [e|]]; simpl.
  - destruct (json_Unmarshal_string data) as [key [e1|]]; [done|].
    intros [= <-]. split; [done|]. done.
  - intros [= <-]. split; [done|]. done.
Qed.
End OneTimeKeyProperties.

(** ** The further properties on the concrete machines *)

Lemma prekey_trial_pass_shape_witness :
  let mach := Toy.machine (Ok [Toy.stranger; Toy.wedged; Toy.healthy])
                (Err "BAD_MESSAGE_FORMAT") None in
  ∃ before s later,
    [Toy.stranger; Toy.wedged; Toy.healthy] = before ++ s :: later
    ∧ not_matching mach "BODY" before [] = Some []
    ∧ session_MatchesInboundSession mach s "BODY" [] = (Ok true, [])
    ∧ session_Decrypt mach s "BODY" id.OlmMsgTypePreKey []
      = (Err "BAD_MESSAGE_MAC", ["ratchet of S2"]).
Proof.
  intros mach.
  destruct (prekey_trial_pass_shape mach "SENDER1" "BODY" []
              [Toy.stranger; Toy.wedged; Toy.healthy] []
              (Err (Sentinel DecryptionFailedWithMatchingSession)) ["ratchet of S2"]
              [CallGetSessions "SENDER1" (Ok [Toy.stranger; Toy.wedged; Toy.healthy]);
               CallMatchesInboundSession Toy.stranger "BODY" (Ok false);
               CallMatchesInboundSession Toy.wedged "BODY" (Ok true);
               CallDecrypt Toy.wedged "BODY" id.OlmMsgTypePreKey (Err "BAD_MESSAGE_MAC")]
              eq_refl eq_refl)
    as (before & w1 & HN & [(_ & [=] & _)|[(s & later & err & _ & _ & [=] & _)
                                         |(s & later & w2 & rd & Hs & HM & HD & Hr & Hc)]]).
  exists [Toy.stranger], Toy.wedged, [Toy.healthy].
  repeat split.
Defined.

Lemma normal_trial_pass_shape_witness :
  let mach := Toy.machine (Ok [Toy.stranger; Toy.healthy; Toy.wedged])
                (Err "BAD_MESSAGE_FORMAT") None in
  ∃ tried errs w1,
    failing_decrypts mach "BODY" id.OlmMsgTypeMsg tried [] = Some (errs, w1)
    ∧ (length tried ≤ 3)%nat.
Proof.
  intros mach.
  destruct (normal_trial_pass_shape mach "SENDER1" id.OlmMsgTypeMsg "BODY" []
              [Toy.stranger; Toy.healthy; Toy.wedged] []
              (Ok Toy.honest) ["ratchet of S1"; "ratchet of S3"]
              [CallGetSessions "SENDER1" (Ok [Toy.stranger; Toy.healthy; Toy.wedged]);
               CallDecrypt Toy.stranger "BODY" id.OlmMsgTypeMsg (Err "BAD_MESSAGE_MAC");
               CallDecrypt Toy.healthy "BODY" id.OlmMsgTypeMsg (Ok Toy.honest)]
              ltac:(discriminate) eq_refl eq_refl)
    as (tried & errs & w1 & HF & Hcases).
  exists tried, errs, w1. split; [exact HF|].
  destruct Hcases as [(Hs & _)|(s & later & p & Hs & _)].
  - rewrite <- Hs. simpl. lia.
  - apply (f_equal length) in Hs. rewrite length_app in Hs. simpl in Hs. lia.
Defined.

Lemma first_decrypting_session_wins_witness :
  Toy.run_decryptOlmEvent
    (Ok [Toy.stranger; Toy.healthy; Toy.wedged]) (Err "BAD_MESSAGE_FORMAT") None
    (Toy.alice_event event.ParsedNil) "SENDER1" id.OlmMsgTypeMsg "BODY"
  = ((decryptOlmEvent_payload Toy.json_Unmarshal Toy.TypeMap
        (Toy.machine (Ok [Toy.stranger; Toy.healthy; Toy.wedged])
           (Err "BAD_MESSAGE_FORMAT") None)
        (Toy.alice_event event.ParsedNil) "SENDER1" Toy.honest
        ["ratchet of S1"; "ratchet of S3"]).1.1,
     ["ratchet of S1"; "ratchet of S3"],
     [CallGetSessions "SENDER1" (Ok [Toy.stranger; Toy.healthy; Toy.wedged]);
      CallDecrypt Toy.stranger "BODY" id.OlmMsgTypeMsg (Err "BAD_MESSAGE_MAC");
      CallDecrypt Toy.healthy "BODY" id.OlmMsgTypeMsg (Ok Toy.honest)]).
Proof.
  apply (first_decrypting_session_wins Toy.json_Unmarshal Toy.TypeMap
           (Toy.machine (Ok [Toy.stranger; Toy.healthy; Toy.wedged])
              (Err "BAD_MESSAGE_FORMAT") None)
           (Toy.alice_event event.ParsedNil) "SENDER1" "BODY" []
           [Toy.stranger] Toy.healthy [Toy.wedged] []
           ["BAD_MESSAGE_MAC"] ["ratchet of S1"]
           [Byte.x00; Byte.x00; Byte.x00; Byte.x00]
           ["ratchet of S1"; "ratchet of S3"]).
  - reflexivity.
  - reflexivity.
  - reflexivity.
Defined.

Lemma matching_session_decrypts_witness :
  Toy.run_decryptOlmEvent
    (Ok [Toy.stranger; Toy.healthy; Toy.wedged]) (Err "BAD_MESSAGE_FORMAT") None
    (Toy.alice_event event.ParsedNil) "SENDER1" id.OlmMsgTypePreKey "BODY"
  = ((decryptOlmEvent_payload Toy.json_Unmarshal Toy.TypeMap
        (Toy.machine (Ok [Toy.stranger; Toy.healthy; Toy.wedged])
           (Err "BAD_MESSAGE_FORMAT") None)
        (Toy.alice_event event.ParsedNil) "SENDER1" Toy.honest
        ["ratchet of S3"]).1.1,
     ["ratchet of S3"],
     [CallGetSessions "SENDER1" (Ok [Toy.stranger; Toy.healthy; Toy.wedged]);
      CallMatchesInboundSession Toy.stranger "BODY" (Ok false);
      CallMatchesInboundSession Toy.healthy "BODY" (Ok true);
      CallDecrypt Toy.healthy "BODY" id.OlmMsgTypePreKey (Ok Toy.honest)]).
Proof.
  apply (matching_session_decrypts Toy.json_Unmarshal Toy.TypeMap
           (Toy.machine (Ok [Toy.stranger; Toy.healthy; Toy.wedged])
              (Err "BAD_MESSAGE_FORMAT") None)
           (Toy.alice_event event.ParsedNil) "SENDER1" "BODY" []
           [Toy.stranger] Toy.healthy [Toy.wedged] [] [] []
           [Byte.x00; Byte.x00; Byte.x00; Byte.x00] ["ratchet of S3"]).
  - reflexivity.
  - reflexivity.
  - reflexivity.
  - reflexivity.
Defined.

Lemma nil_plaintext_is_exhaustion_witness :
  Toy.run_decryptOlmEvent
    (Ok [Toy.stranger; Toy.carrying None; Toy.healthy]) (Err "BAD_MESSAGE_FORMAT")
    None (Toy.alice_event event.ParsedNil) "SENDER1" id.OlmMsgTypeMsg "BODY"
  = (Err (Sentinel DecryptionFailedForNormalMessage),
     ["ratchet of S1"; "ratchet of S5"; "unwedge @alice:example.com"],
     [CallGetSessions "SENDER1" (Ok [Toy.stranger; Toy.carrying None; Toy.healthy]);
      CallDecrypt Toy.stranger "BODY" id.OlmMsgTypeMsg (Err "BAD_MESSAGE_MAC");
      CallDecrypt (Toy.carrying None) "BODY" id.OlmMsgTypeMsg (Ok None);
      CallMarkDeviceForUnwedging "@alice:example.com" "SENDER1"]).
Proof.
  apply (nil_plaintext_is_exhaustion Toy.json_Unmarshal Toy.TypeMap
           (Toy.machine (Ok [Toy.stranger; Toy.carrying None; Toy.healthy])
              (Err "BAD_MESSAGE_FORMAT") None)
           (Toy.alice_event event.ParsedNil) "SENDER1" "BODY" []
           [Toy.stranger] (Toy.carrying None) [Toy.healthy] []
           ["BAD_MESSAGE_MAC"] ["ratchet of S1"]
           ["ratchet of S1"; "ratchet of S5"]).
  - reflexivity.
  - reflexivity.
  - reflexivity.
Defined.

Lemma store_error_is_propagated_witness :
  Toy.run_decryptOlmEvent (Err "database is locked") (Ok Toy.healthy) None
    (Toy.alice_event event.ParsedNil) "SENDER1" id.OlmMsgTypePreKey "BODY"
  = (Err (Wrap (Wrap (External "database is locked")
                  "failed to get session for SENDER1")
            "failed to decrypt olm event"),
     [], [CallGetSessions "SENDER1" (Err "database is locked")]).
Proof.
  apply (store_error_is_propagated Toy.json_Unmarshal Toy.TypeMap
           (Toy.machine (Err "database is locked") (Ok Toy.healthy) None)).
  - left. reflexivity.
  - reflexivity.
Defined.

Lemma bootstrap_failure_signals_witness :
  Toy.run_decryptOlmEvent (Ok [Toy.stranger]) (Err "BAD_MESSAGE_KEY_ID") None
    (Toy.alice_event event.ParsedNil) "SENDER1" id.OlmMsgTypePreKey "BODY"
  = (Err (Wrap (External "BAD_MESSAGE_KEY_ID")
            "failed to create new session from prekey message"),
     ["unwedge @alice:example.com"],
     [CallGetSessions "SENDER1" (Ok [Toy.stranger]);
      CallMatchesInboundSession Toy.stranger "BODY" (Ok false)]
     ++ [CallNewInboundSessionFrom "SENDER1" "BODY" (Err "BAD_MESSAGE_KEY_ID");
         CallMarkDeviceForUnwedging "@alice:example.com" "SENDER1"]).
Proof.
  apply (bootstrap_failure_signals Toy.json_Unmarshal Toy.TypeMap
           (Toy.machine (Ok [Toy.stranger]) (Err "BAD_MESSAGE_KEY_ID") None)
           (Toy.alice_event event.ParsedNil) "SENDER1" "BODY" [] []
           [CallGetSessions "SENDER1" (Ok [Toy.stranger]);
            CallMatchesInboundSession Toy.stranger "BODY" (Ok false)]
           "BAD_MESSAGE_KEY_ID" []).
  - reflexivity.
  - reflexivity.
Defined.

Lemma envelope_provenance_witness :
  ∃ olmEvt,
    (Toy.run_decryptOlmEvent (Ok [Toy.healthy]) (Err "BAD_MESSAGE_FORMAT") None
       (Toy.alice_event event.ParsedNil) "SENDER1" id.OlmMsgTypeMsg "BODY").1.1
    = Ok olmEvt
    ∧ Source olmEvt = Some (Toy.alice_event event.ParsedNil)
    ∧ SenderKey olmEvt = "SENDER1".
Proof.
  eexists. split; [reflexivity|].
  edestruct (envelope_provenance Toy.json_Unmarshal Toy.TypeMap
               (Toy.machine (Ok [Toy.healthy]) (Err "BAD_MESSAGE_FORMAT") None)
               (Toy.alice_event event.ParsedNil) "SENDER1" id.OlmMsgTypeMsg "BODY" [])
    as (plaintext & payload & _ & _ & HS & HK & _).
  - reflexivity.
  - split; [exact HS|exact HK].
Defined.

Lemma unwedging_exactly_on_desync_witness :
  ∃ err,
    (Toy.run_decryptOlmEvent (Ok [Toy.wedged]) (Err "BAD_MESSAGE_FORMAT") None
       (Toy.alice_event event.ParsedNil) "SENDER1" id.OlmMsgTypeMsg "BODY").1.1
    = Err err
    ∧ desync_error err.
Proof.
  eapply (proj1 (proj1 (unwedging_exactly_on_desync Toy.json_Unmarshal Toy.TypeMap
                          (Toy.machine (Ok [Toy.wedged]) (Err "BAD_MESSAGE_FORMAT") None)
                          (Toy.alice_event event.ParsedNil) "SENDER1"
                          id.OlmMsgTypeMsg "BODY" [] _ _ _ eq_refl))).
  exists "@alice:example.com", "SENDER1". unfold unwedging_signal.
  apply elem_of_cons. right. apply elem_of_cons. right. apply elem_of_cons. by left.
Defined.

Lemma DecryptOlmEvent_errors_witness :
  Sentinel NotEncryptedForMe
  ∈ [Sentinel IncorrectEncryptedContentType; Sentinel UnsupportedAlgorithm;
     Sentinel NotEncryptedForMe]
  ∨ pipeline_error (Sentinel NotEncryptedForMe).
Proof.
  eapply (DecryptOlmEvent_errors Toy.json_Unmarshal Toy.TypeMap
            (Toy.machine (Ok [Toy.healthy]) (Ok Toy.healthy) None)
            (Toy.alice_event (event.ParsedEncrypted
               (Toy.olm_content id.AlgorithmOlmV1 "ACC2" id.OlmMsgTypePreKey))) []).
  reflexivity.
Defined.

Lemma normal_message_calls_witness :
  Forall normal_call
    (Toy.run_decryptOlmEvent (Ok [Toy.stranger; Toy.wedged])
       (Ok Toy.healthy) None
       (Toy.alice_event event.ParsedNil) "SENDER1" id.OlmMsgTypeMsg "BODY").2.
Proof.
  eapply (normal_message_calls Toy.json_Unmarshal Toy.TypeMap
            (Toy.machine (Ok [Toy.stranger; Toy.wedged]) (Ok Toy.healthy) None)
            (Toy.alice_event event.ParsedNil) "SENDER1" id.OlmMsgTypeMsg "BODY" []).
  - done.
  - reflexivity.
Defined.

Lemma unsigned_key_round_trip_witness :
  ToyJSON.MarshalJSON ToyJSON.plain_key
  = Ok [ToyJSON.quote; Byte.x4f; Byte.x54; Byte.x4b; Byte.x37; ToyJSON.quote]
  ∧ ToyJSON.UnmarshalJSON ToyJSON.signed_key
      [ToyJSON.quote; Byte.x4f; Byte.x54; Byte.x4b; Byte.x37; ToyJSON.quote]
    = (ToyJSON.plain_key, None).
Proof.
  apply (unsigned_key_round_trip ToyJSON.Unmarshal_serializableOTK
           ToyJSON.Unmarshal_string ToyJSON.Marshal_serializableOTK
           ToyJSON.Marshal_string ToyJSON.plain_key ToyJSON.signed_key).
  - reflexivity.
  - reflexivity.
  - discriminate.
  - reflexivity.
Defined.

Lemma signed_key_round_trip_witness :
  ToyJSON.UnmarshalJSON
    {| mautrix.Key := ""; mautrix.IsSigned := false;
       mautrix.Signatures_ := mautrix.Signatures_ ToyJSON.signed_key;
       mautrix.Unsigned := None |}
    [ToyJSON.lbrace; Byte.x4f; Byte.x54; Byte.x4b; Byte.x37; ToyJSON.rbrace]
  = (ToyJSON.signed_key, None).
Proof.
  eapply (signed_key_round_trip ToyJSON.Unmarshal_serializableOTK
            ToyJSON.Unmarshal_string ToyJSON.Marshal_serializableOTK
            ToyJSON.Marshal_string ToyJSON.signed_key).
  - reflexivity.
  - reflexivity.
  - reflexivity.
  - reflexivity.
  - reflexivity.
  - reflexivity.
Defined.

Lemma remarshal_keeps_shape_witness :
  ToyJSON.MarshalJSON ToyJSON.plain_key = ToyJSON.Marshal_string "OTK7".
Proof.
  eapply (proj2 (remarshal_keeps_shape ToyJSON.Unmarshal_serializableOTK
                   ToyJSON.Unmarshal_string ToyJSON.Marshal_serializableOTK
                   ToyJSON.Marshal_string ToyJSON.signed_key ToyJSON.plain_key
                   [ToyJSON.quote; Byte.x4f; Byte.x54; Byte.x4b; Byte.x37;
                    ToyJSON.quote] eq_refl)).
  discriminate.
Defined.

Lemma matching_session_failure_is_confirmed_witness :
  Toy.run_decryptOlmEvent
    (Ok [Toy.stranger; Toy.wedged; Toy.healthy]) (Err "BAD_MESSAGE_FORMAT") None
    (Toy.alice_event event.ParsedNil) "SENDER1" id.OlmMsgTypePreKey "BODY"
  = (Err (Wrap (Sentinel DecryptionFailedWithMatchingSession)
            "failed to decrypt olm event"),
     ["ratchet of S2"; "unwedge @alice:example.com"],
     [CallGetSessions "SENDER1" (Ok [Toy.stranger; Toy.wedged; Toy.healthy]);
      CallMatchesInboundSession Toy.stranger "BODY" (Ok false);
      CallMatchesInboundSession Toy.wedged "BODY" (Ok true);
      CallDecrypt Toy.wedged "BODY" id.OlmMsgTypePreKey (Err "BAD_MESSAGE_MAC")]
     ++ [CallLogWarn
           "Found matching session yet decryption failed for sender %s with key %s"
           ["@alice:example.com"; "SENDER1"];
         CallMarkDeviceForUnwedging "@alice:example.com" "SENDER1"]).
Proof.
  refine (proj1 (proj2
    (matching_session_failure_is_confirmed Toy.json_Unmarshal Toy.TypeMap
       (Toy.machine (Ok [Toy.stranger; Toy.wedged; Toy.healthy])
          (Err "BAD_MESSAGE_FORMAT") None)
       (Toy.alice_event event.ParsedNil) "SENDER1" "BODY" []
       (Err (Sentinel DecryptionFailedWithMatchingSession)) ["ratchet of S2"]
       [CallGetSessions "SENDER1" (Ok [Toy.stranger; Toy.wedged; Toy.healthy]);
        CallMatchesInboundSession Toy.stranger "BODY" (Ok false);
        CallMatchesInboundSession Toy.wedged "BODY" (Ok true);
        CallDecrypt Toy.wedged "BODY" id.OlmMsgTypePreKey (Err "BAD_MESSAGE_MAC")]
       Toy.wedged "BODY" "BODY" id.OlmMsgTypePreKey "BAD_MESSAGE_MAC" _ _ _))).
  - reflexivity.
  - apply elem_of_cons. right. apply elem_of_cons. right.
    apply elem_of_cons. left. reflexivity.
  - apply elem_of_cons. right. apply elem_of_cons. right.
    apply elem_of_cons. right. apply elem_of_cons. left. reflexivity.
Defined.
